(** * PowerfulCases: case resolution, file lookup and export

    A shallow embedding of [powerfulcases/cases.py].  Python strings are
    modelled by [string] (one [ascii] per character), [pathlib] paths by
    an anchor and a list of components (POSIX flavour), exceptions by the
    type [exn], and everything the module asks its host for (the file
    system, the remote registry, the cache and the manifest reader) by
    the record [Host] over an abstract state. *)

From stdpp Require Import base option list strings gmap sorting.
From Stdlib Require Import Ascii String.

Local Open Scope string_scope.
Local Open Scope list_scope.

(** ** Python string primitives *)

Module PyStr.

(** [s.startswith(p)] *)
Fixpoint startswith (s p : string) : bool :=
  match p, s with
  | EmptyString, _ => true
  | String a p', String b s' => bool_decide (a = b) && startswith s' p'
  | String _ _, EmptyString => false
  end.

(** [sub in s] *)
Fixpoint contains (sub s : string) : bool :=
  startswith s sub ||
  match s with
  | EmptyString => false
  | String _ s' => contains sub s'
  end.

(** [len(s) > 1 and s[1] == c] *)
Definition second_is (c : ascii) (s : string) : bool :=
  match String.get 1 s with
  | Some d => bool_decide (d = c)
  | None => false
  end.

(** [s.split(sep)] for a one-character separator: never the empty list. *)
Fixpoint split (sep : ascii) (s : string) : list string :=
  match s with
  | EmptyString => [EmptyString]
  | String c s' =>
      if bool_decide (c = sep) then EmptyString :: split sep s'
      else match split sep s' with
           | [] => [String c EmptyString]
           | w :: ws => String c w :: ws
           end
  end.

(** [sep.join(l)] *)
Definition join (sep : string) (l : list string) : string :=
  String.concat sep l.

End PyStr.

(** ** Exceptions and results *)

(** A message is the sequence of pieces of the f-string that built it:
    literal or interpolated text, interpolated lists (shown by Python
    through [repr]), interpolated counts, and byte totals shown in
    megabytes ([round(total_size / 1024 / 1024, 2)]). *)
Inductive piece :=
  | Text (s : string)
  | ListRepr (l : list string)
  | Count (n : nat)
  | MegaBytes (total_size : Z).

Definition message := list piece.

Inductive exn :=
  | ValueError (m : message)
  | FileNotFoundError (m : message)
  | FileExistsError (m : message)
  | OSError (m : message)
  | RuntimeError (m : message)
  | ManifestError (m : message).

Inductive result (A : Type) :=
  | Ok (a : A)
  | Raise (e : exn).
Arguments Ok {A} a.
Arguments Raise {A} e.

Definition raises {A} (r : result A) : bool :=
  match r with Ok _ => false | Raise _ => true end.

Global Instance result_ret : MRet result := λ A a, Ok a.
Global Instance result_bind : MBind result := λ A B f r,
  match r with Ok a => f a | Raise e => Raise e end.
Global Instance result_fmap : FMap result := λ A B f r,
  match r with Ok a => Ok (f a) | Raise e => Raise e end.

(** A loop whose body may raise. *)
Fixpoint foldlM {A B} (f : A → B → result A) (a : A) (l : list B) : result A :=
  match l with
  | [] => Ok a
  | x :: l' => a' ← f a x; foldlM f a' l'
  end.

(** [for x in l: f(x)] *)
Fixpoint for_each {B} (f : B → result unit) (l : list B) : result unit :=
  match l with
  | [] => Ok ()
  | x :: l' => f x;; for_each f l'
  end.

(** ** Path safety: [_validate_path_component] *)

Definition backslash : string := String (ascii_of_nat 92) EmptyString.

Definition _validate_path_component (component : string) : result unit :=
  if bool_decide (component = "") then
    Raise (ValueError [Text "Path component cannot be empty"])
  else if PyStr.contains ".." component
          || PyStr.contains "/" component
          || PyStr.contains backslash component then
    Raise (ValueError [Text "Invalid path component: '"; Text component;
                       Text "' contains path separators or '..'"])
  else if PyStr.startswith component "/"
          || PyStr.second_is ":" component then
    Raise (ValueError [Text "Invalid path component: '"; Text component;
                       Text "' is an absolute path"])
  else Ok ().

(** The conditions of the contract, in the words of the specification. *)
Definition is_substring (sub s : string) : Prop := ∃ a b, s = a +:+ sub +:+ b.

Definition unsafe_component (s : string) : Prop :=
  s = ""
  ∨ is_substring ".." s
  ∨ (is_substring "/" s ∨ is_substring backslash s)
  ∨ ((∃ t, s = "/" +:+ t) ∨ (∃ d t, s = String d (String ":" t))).

(** ** Paths ([pathlib], POSIX flavour) *)

Record Path := mkPath { anchor : string; parts : list string }.

Global Instance Path_eq_dec : EqDecision Path.
Proof. solve_decision. Defined.

Module PyPath.

Fixpoint leading_slashes (s : string) : nat :=
  match s with
  | String c s' => if bool_decide (c = "/"%char) then S (leading_slashes s') else 0
  | EmptyString => 0
  end.

(** The root of a path: none, [/], or [//] for exactly two slashes. *)
Definition anchor_of (s : string) : string :=
  match leading_slashes s with
  | 0 => ""
  | 2 => "//"
  | _ => "/"
  end.

Definition kept_component (c : string) : bool :=
  negb (bool_decide (c = "")) && negb (bool_decide (c = ".")).

(** [Path(s)] *)
Definition of_str (s : string) : Path :=
  mkPath (anchor_of s) (List.filter kept_component (PyStr.split "/" s)).

(** [p / s] *)
Definition div (p : Path) (s : string) : Path :=
  let q := of_str s in
  if bool_decide (anchor q = "") then mkPath (anchor p) (parts p ++ parts q)
  else q.

(** [p.joinpath( *segments )] *)
Definition joinpath (p : Path) (segments : list string) : Path :=
  foldl div p segments.

(** [p.name] *)
Definition name (p : Path) : string := List.last (parts p) "".

(** [p.parent] *)
Definition parent (p : Path) : Path :=
  mkPath (anchor p) (List.removelast (parts p)).

(** [str(p)] *)
Definition str (p : Path) : string :=
  match anchor p, parts p with
  | EmptyString, [] => "."
  | a, ps => a +:+ PyStr.join "/" ps
  end.

Fixpoint is_prefix_of (l1 l2 : list string) : bool :=
  match l1, l2 with
  | [], _ => true
  | x :: l1', y :: l2' => bool_decide (x = y) && is_prefix_of l1' l2'
  | _ :: _, [] => false
  end.

(** [p.is_relative_to(q)]: [q] is [p] or one of its parents. *)
Definition is_relative_to (p q : Path) : bool :=
  bool_decide (anchor p = anchor q) && is_prefix_of (parts q) (parts p).

End PyPath.

Notation "p // s" := (PyPath.div p s) (at level 40, left associativity).

(** ** Manifests and bundles *)

Record FileEntry := {
  fe_path : string;
  fe_format : string;
  fe_format_version : option string;
  fe_variant : option string;
  fe_default : bool;
  fe_includes : list string }.

Record Citation := { cit_text : string; cit_doi : option string }.

Record Credits := {
  cr_license : option string;
  cr_authors : list string;
  cr_maintainers : list string;
  cr_citations : list Citation }.

(** The manifest object is probed with [hasattr]: for [collection] and
    [tags] the outer [None] stands for a missing attribute. *)
Record Manifest := {
  m_files : list FileEntry;
  m_credits : option Credits;
  m_collection : option (option string);
  m_tags : option (list string) }.

Record CaseBundle := {
  cb_name : string;
  cb_dir : string;
  cb_manifest : Manifest;
  cb_is_remote : bool }.

(** [CaseBundle(name, directory, manifest, is_remote)] *)
Definition mkCaseBundle (name : string) (directory : Path) (manifest : Manifest)
    (is_remote : bool) : CaseBundle :=
  {| cb_name := name; cb_dir := PyPath.str directory;
     cb_manifest := manifest; cb_is_remote := is_remote |}.

(** Truth value of [hasattr(m, 'collection') and m.collection]. *)
Definition declared_collection (m : Manifest) : option string :=
  match m_collection m with
  | Some (Some c) => if bool_decide (c = "") then None else Some c
  | _ => None
  end.

(** [CaseBundle.collection] *)
Definition collection (self : CaseBundle) : option string :=
  match declared_collection (cb_manifest self) with
  | Some c => Some c
  | None =>
      let case_path := PyPath.of_str (cb_dir self) in
      if bool_decide (PyPath.name (PyPath.parent case_path) ≠ "cases")
      then Some (PyPath.name (PyPath.parent case_path))
      else None
  end.

(** [CaseBundle.tags] *)
Definition tags (self : CaseBundle) : list string :=
  match m_tags (cb_manifest self) with
  | Some ts => ts
  | None => []
  end.

(** ** File locator *)

Definition _normalize_format (format : string) : string :=
  if bool_decide (format = "raw") then "psse_raw"
  else if bool_decide (format = "dyr") then "psse_dyr"
  else format.

(** The manifest queries of [powerfulcases.manifest]. *)
Record ManifestOps := {
  file_entry :
    Manifest → string → option string → option string → option FileEntry;
  get_default_file : Manifest → string → option FileEntry;
  _formats : Manifest → list string;
  _variants : Manifest → string → list string }.

Section FileLocator.

Context (mf : ManifestOps).

Definition formats (case : CaseBundle) : list string :=
  _formats mf (cb_manifest case).

Definition variants (case : CaseBundle) (format : string) : list string :=
  let actual_format := _normalize_format format in
  _variants mf (cb_manifest case) actual_format.

Definition file (case : CaseBundle) (format : string)
    (format_version variant : option string) (required : bool)
    : result (option string) :=
  let actual_format := _normalize_format format in
  let entry := file_entry mf (cb_manifest case) actual_format format_version variant in
  let entry :=
    match entry, variant, format_version with
    | None, None, None => get_default_file mf (cb_manifest case) actual_format
    | _, _, _ => entry
    end in
  match entry with
  | None =>
      if required then
        let available := formats case in
        match variant, format_version with
        | Some v, _ =>
            let var_list := variants case actual_format in
            Raise (FileNotFoundError
              [Text "File not found for format '"; Text format;
               Text "' with variant '"; Text v;
               Text "' in case '"; Text (cb_name case);
               Text "'. Available variants: "; Text (PyStr.join ", " var_list)])
        | None, Some fv =>
            Raise (FileNotFoundError
              [Text "File not found for format '"; Text format;
               Text "' with version '"; Text fv;
               Text "' in case '"; Text (cb_name case);
               Text "'. Available formats: "; Text (PyStr.join ", " available)])
        | None, None =>
            Raise (FileNotFoundError
              [Text "File not found for format '"; Text format;
               Text "' in case '"; Text (cb_name case);
               Text "'. Available formats: "; Text (PyStr.join ", " available)])
        end
      else Ok None
  | Some e => Ok (Some (PyPath.str (PyPath.of_str (cb_dir case) // fe_path e)))
  end.

(** [CaseBundle.raw], [CaseBundle.dyr] and [CaseBundle.get_dyr] *)
Definition raw (self : CaseBundle) := file self "psse_raw" None None true.
Definition dyr (self : CaseBundle) := file self "psse_dyr" None None false.
Definition get_dyr (self : CaseBundle) (variant : string) :=
  file self "psse_dyr" None (Some variant) true.

(** No entry answers the request: no exact match and, when neither a
    version nor a variant is asked for, no default either. *)
Definition unresolved (case : CaseBundle) (format : string)
    (format_version variant : option string) : Prop :=
  file_entry mf (cb_manifest case) (_normalize_format format)
    format_version variant = None
  ∧ (format_version = None → variant = None →
     get_default_file mf (cb_manifest case) (_normalize_format format) = None).

(** The message ends with the given heading and the listed names. *)
Definition enumerates (m : message) (heading : string) (names : list string) : Prop :=
  ∃ before, m = before ++ [Text heading; Text (PyStr.join ", " names)].

End FileLocator.

(** Modelled from the spec: the manifest queries of [powerfulcases.manifest],
    which is not part of the sources at hand.  An entry matches a request
    when its format is the requested one and, where a version or a variant
    is given, these agree exactly; the default of a format is the entry
    marked as such, else the first entry of that format. *)
Module SpecManifest.

Definition matches (format : string) (format_version variant : option string)
    (e : FileEntry) : bool :=
  bool_decide (fe_format e = format)
  && match format_version with
     | Some v => bool_decide (fe_format_version e = Some v)
     | None => true
     end
  && match variant with
     | Some v => bool_decide (fe_variant e = Some v)
     | None => true
     end.

Definition file_entry (m : Manifest) (format : string)
    (format_version variant : option string) : option FileEntry :=
  List.find (matches format format_version variant) (m_files m).

Definition get_default_file (m : Manifest) (format : string) : option FileEntry :=
  match List.find (λ e, bool_decide (fe_format e = format) && fe_default e) (m_files m) with
  | Some e => Some e
  | None => List.find (λ e, bool_decide (fe_format e = format)) (m_files m)
  end.

Definition formats (m : Manifest) : list string :=
  remove_dups (fe_format <$> m_files m).

Definition variants (m : Manifest) (format : string) : list string :=
  remove_dups
    (omap (λ e, if bool_decide (fe_format e = format) then fe_variant e else None)
          (m_files m)).

Definition ops : ManifestOps :=
  Build_ManifestOps file_entry get_default_file formats variants.

End SpecManifest.

(** A bundle in the shape of the shipped IEEE 14-bus case. *)
Definition ieee14_manifest : Manifest :=
  {| m_files :=
       [ {| fe_path := "ieee14.raw"; fe_format := "psse_raw";
            fe_format_version := Some "33"; fe_variant := None;
            fe_default := true; fe_includes := [] |};
         {| fe_path := "ieee14.dyr"; fe_format := "psse_dyr";
            fe_format_version := None; fe_variant := None;
            fe_default := true; fe_includes := [] |};
         {| fe_path := "ieee14_genrou.dyr"; fe_format := "psse_dyr";
            fe_format_version := None; fe_variant := Some "genrou";
            fe_default := false; fe_includes := [] |} ];
     m_credits := None;
     m_collection := None;
     m_tags := Some [] |}.

Definition ieee14_bundle : CaseBundle :=
  mkCaseBundle "ieee14"
    (mkPath "/" ["pkg"; "powerfulcases"; "cases"; "ieee-transmission"; "ieee14"])
    ieee14_manifest false.

(** The class of an exception, without its message. *)
Inductive exn_class :=
  | CValueError | CFileNotFoundError | CFileExistsError
  | COSError | CRuntimeError | CManifestError.

Definition class_of (e : exn) : exn_class :=
  match e with
  | ValueError _ => CValueError
  | FileNotFoundError _ => CFileNotFoundError
  | FileExistsError _ => CFileExistsError
  | OSError _ => COSError
  | RuntimeError _ => CRuntimeError
  | ManifestError _ => CManifestError
  end.

Definition message_of (e : exn) : message :=
  match e with
  | ValueError m | FileNotFoundError m | FileExistsError m
  | OSError m | RuntimeError m | ManifestError m => m
  end.

(** Two results are the same when they return the same value, or raise
    the same condition: exceptions of one class whose messages differ at
    most in one interpolated text (the format name as the caller wrote it). *)
Definition same_condition (e1 e2 : exn) : Prop :=
  class_of e1 = class_of e2
  ∧ ∃ before s1 s2 after,
      message_of e1 = before ++ Text s1 :: after
      ∧ message_of e2 = before ++ Text s2 :: after.

Definition same_result {A} (r1 r2 : result A) : Prop :=
  match r1, r2 with
  | Ok a1, Ok a2 => a1 = a2
  | Raise e1, Raise e2 => same_condition e1 e2
  | _, _ => False
  end.

(** The manifest declares no collection: the attribute is missing, [None]
    or the empty string. *)
Definition no_collection_field (m : Manifest) : Prop :=
  m_collection m = None ∨ m_collection m = Some None
  ∨ m_collection m = Some (Some "").

(** ** The host: file system, registry, cache and manifest reader *)

(** What a call changes outside the process, in the order it happens. *)
Inductive Effect :=
  | EDownload (name_or_path : string)
  | ERmtree (p : Path)
  | ECopytree (src dst : Path)
  | EPrint (m : message)
  | EWarn (category : string) (m : message).

(** Everything [cases.py] asks of [pathlib], [os], [shutil] and of the
    sibling modules [manifest], [cache] and [registry], over a state
    [FS] of the outside world.  Queries read the state; [download],
    [rmtree] and [copytree] change it, and may fail half way. *)
Record Host (FS : Type) := {
  package_dir : Path;
  getcwd : FS → Path;
  is_dir : FS → Path → bool;
  is_file : FS → Path → bool;
  path_exists : FS → Path → bool;
  iterdir : FS → Path → list Path;
  rglob : FS → Path → string → list Path;
  resolve : FS → Path → result Path;
  walk : FS → Path → list (string * list string);
  stat_size : FS → Path → result Z;
  parse_manifest : FS → Path → result Manifest;
  infer_manifest : FS → Path → result Manifest;
  is_remote_case : FS → string → bool;
  list_remote_cases : FS → list string;
  _download_remote : string → FS → result unit * FS;
  is_case_cached : FS → string → result bool;
  get_cached_case_dir : FS → string → result Path;
  list_cached_cases : FS → list string;
  rmtree : Path → FS → result unit * FS;
  copytree : Path → Path → FS → result unit * FS }.

Arguments package_dir {FS}. Arguments getcwd {FS}. Arguments is_dir {FS}.
Arguments is_file {FS}. Arguments path_exists {FS}. Arguments iterdir {FS}.
Arguments rglob {FS}. Arguments resolve {FS}. Arguments walk {FS}.
Arguments stat_size {FS}. Arguments parse_manifest {FS}.
Arguments infer_manifest {FS}. Arguments is_remote_case {FS}.
Arguments list_remote_cases {FS}. Arguments _download_remote {FS}.
Arguments is_case_cached {FS}. Arguments get_cached_case_dir {FS}.
Arguments list_cached_cases {FS}. Arguments rmtree {FS}.
Arguments copytree {FS}.

(** ** Computations that change the outside world *)

Record Outcome (FS A : Type) := mkOutcome {
  res : result A;
  final : FS;
  emitted : list Effect }.
Arguments mkOutcome {FS A}. Arguments res {FS A}.
Arguments final {FS A}. Arguments emitted {FS A}.

Definition M (FS A : Type) : Type := FS → Outcome FS A.

Section Monad.

Context {FS : Type}.

Definition ret {A} (a : A) : M FS A := λ w, mkOutcome (Ok a) w [].

Definition raise {A} (e : exn) : M FS A := λ w, mkOutcome (Raise e) w [].

Definition bind {A B} (m : M FS A) (f : A → M FS B) : M FS B := λ w,
  let o := m w in
  match res o with
  | Ok a =>
      let o' := f a (final o) in
      mkOutcome (res o') (final o') (emitted o ++ emitted o')
  | Raise e => mkOutcome (Raise e) (final o) (emitted o)
  end.

(** A query of the world. *)
Definition reads {A} (f : FS → result A) : M FS A := λ w, mkOutcome (f w) w [].

Definition gets {A} (f : FS → A) : M FS A := λ w, mkOutcome (Ok (f w)) w [].

(** A call that changes the world, recorded as [ev]. *)
Definition acts (ev : Effect) (f : FS → result unit * FS) : M FS unit := λ w,
  mkOutcome (f w).1 (f w).2 [ev].

(** A call seen from outside that leaves the world as it is. *)
Definition emit (ev : Effect) : M FS unit := λ w, mkOutcome (Ok ()) w [ev].

End Monad.

Global Instance M_ret {FS} : MRet (M FS) := λ A, ret.
Global Instance M_bind {FS} : MBind (M FS) := λ A B f m, bind m f.

(** ** Case resolution *)

Definition manifest_toml : string := "manifest.toml".

(** [PROGRESS_THRESHOLD_BYTES] *)
Definition PROGRESS_THRESHOLD_BYTES : Z := 100 * 1024 * 1024.

(** One candidate of the search by name: the tuple
    [(source_type, collection, location)], whose location is a directory
    for a bundled case and a registry path for a remote one. *)
Inductive Match :=
  | BundledMatch (coll : string) (case_dir : Path)
  | RemoteMatch (coll : string) (remote_path : string).

Definition source_type (m : Match) : string :=
  match m with
  | BundledMatch _ _ => "bundled"
  | RemoteMatch _ _ => "remote"
  end.

Definition match_collection (m : Match) : string :=
  match m with
  | BundledMatch coll _ | RemoteMatch coll _ => coll
  end.

Section Resolver.

Context {FS : Type} (host : Host FS).

(** [CASES_DIR = Path(__file__).parent / "cases"] *)
Definition CASES_DIR : Path := package_dir host // "cases".

(** [child.resolve().is_relative_to(parent.resolve())] *)
Definition resolves_inside (w : FS) (child parent : Path) : result bool :=
  rc ← resolve host w child;
  rp ← resolve host w parent;
  Ok (PyPath.is_relative_to rc rp).

(** The exceptions caught by [except (ValueError, OSError)]. *)
Definition is_ValueError_or_OSError (e : exn) : bool :=
  match e with
  | ValueError _ | OSError _ => true
  | _ => false
  end.

Definition _is_safe_subpath (w : FS) (child parent : Path) : result bool :=
  match resolves_inside w child parent with
  | Ok b => Ok b
  | Raise e => if is_ValueError_or_OSError e then Ok false else Raise e
  end.

Definition read_manifest (w : FS) (directory : Path) : result Manifest :=
  let manifest_path := directory // manifest_toml in
  if is_file host w manifest_path then parse_manifest host w manifest_path
  else infer_manifest host w directory.

Definition _load_bundled_case (name : string) (directory : Path) (w : FS)
    : result CaseBundle :=
  manifest ← read_manifest w directory;
  Ok (mkCaseBundle name directory manifest false).

(** [directory.absolute()] *)
Definition absolute (w : FS) (p : Path) : Path :=
  if bool_decide (anchor p = "")
  then mkPath (anchor (getcwd host w)) (parts (getcwd host w) ++ parts p)
  else p.

Definition _load_local_case (directory : Path) (w : FS) : result CaseBundle :=
  manifest ← read_manifest w directory;
  Ok (mkCaseBundle (PyPath.name directory) (absolute w directory) manifest false).

Definition _load_remote_case (name_or_path : string) : M FS CaseBundle :=
  cached ← reads (λ w, is_case_cached host w name_or_path);
  (if negb cached
   then acts (EDownload name_or_path) (_download_remote host name_or_path)
   else mret ());;
  directory ← reads (λ w, get_cached_case_dir host w name_or_path);
  manifest ← reads (λ w, read_manifest w directory);
  let case_name :=
    if PyStr.contains "/" name_or_path
    then List.last (PyStr.split "/" name_or_path) ""
    else name_or_path in
  mret (mkCaseBundle case_name directory manifest true).

Definition _find_case_in_collections (w : FS) (case_name : string)
    : result (list Path) :=
  _validate_path_component case_name;;
  if negb (is_dir host w CASES_DIR) then Ok []
  else
    let top_level_case := CASES_DIR // case_name in
    matches ←
      (if is_dir host w top_level_case then
         inside ← resolves_inside w top_level_case CASES_DIR;
         Ok (if inside : bool then [top_level_case] else [])
       else Ok []);
    foldlM
      (λ matches coll_dir,
         if negb (is_dir host w coll_dir)
            || PyStr.startswith (PyPath.name coll_dir) "."
         then Ok matches
         else
           let case_dir := coll_dir // case_name in
           if is_dir host w case_dir then
             inside ← resolves_inside w case_dir coll_dir;
             Ok (if inside : bool then matches ++ [case_dir] else matches)
           else Ok matches)
      matches (iterdir host w CASES_DIR).

(** The case name of a registry entry: its last segment. *)
Definition remote_case_name (remote_path : string) : string :=
  if PyStr.contains "/" remote_path
  then List.last (PyStr.split "/" remote_path) ""
  else remote_path.

Definition remote_matches (w : FS) (case_name : string) : list string :=
  List.filter (λ remote_path, bool_decide (remote_case_name remote_path = case_name))
    (list_remote_cases host w).

Definition _find_remote_case_by_name (w : FS) (case_name : string)
    : result (option string) :=
  let matches := remote_matches w case_name in
  if bool_decide (1 < List.length matches) then
    Raise (ValueError
      [Text "Ambiguous remote case '"; Text case_name;
       Text "' found in multiple collections: "; ListRepr matches])
  else Ok (head matches).

End Resolver.

Section Catalogue.

Context {FS : Type} (host : Host FS).

Local Abbreviation CASES_DIR := (CASES_DIR host).

(** The name and the collection of a registry entry, as [cases] reads them. *)
Definition remote_entry (remote_path : string) : string * option string :=
  if PyStr.contains "/" remote_path then
    let parts := PyStr.split "/" remote_path in
    (List.last parts "",
     if bool_decide (1 < List.length parts) then head parts else None)
  else (remote_path, None).

(** [manifest.tags if hasattr(manifest, 'tags') else []], and [[]] when
    the manifest cannot be parsed. *)
Definition manifest_tags (w : FS) (manifest_path : Path) : list string :=
  match parse_manifest host w manifest_path with
  | Ok manifest => default [] (m_tags manifest)
  | Raise _ => []
  end.

(** First loop of [cases]: one manifest found by [rglob]. *)
Definition scan_manifest (w : FS)
    (result : gmap string (option string * list string)) (manifest_path : Path)
    : gmap string (option string * list string) :=
  let case_dir := PyPath.parent manifest_path in
  let case_name := PyPath.name case_dir in
  if PyStr.startswith case_name "." then result
  else
    let coll_dir := PyPath.parent case_dir in
    let coll_name :=
      if bool_decide (coll_dir = CASES_DIR) then None
      else Some (PyPath.name coll_dir) in
    <[case_name := (coll_name, manifest_tags w manifest_path)]> result.

(** [if name not in result: result[name] = entry] *)
Definition add_if_new (name : string) (entry : option string * list string)
    (result : gmap string (option string * list string))
    : gmap string (option string * list string) :=
  match result !! name with
  | Some _ => result
  | None => <[name := entry]> result
  end.

(** Second loop of [cases]: the directories of one collection directory. *)
Definition scan_collection (w : FS)
    (result : gmap string (option string * list string)) (coll_dir : Path)
    : gmap string (option string * list string) :=
  if negb (is_dir host w coll_dir) || PyStr.startswith (PyPath.name coll_dir) "."
  then result
  else
    foldl (λ result case_dir,
             if is_dir host w case_dir
             then add_if_new (PyPath.name case_dir)
                    (Some (PyPath.name coll_dir), []) result
             else result)
          result (iterdir host w coll_dir).

(** The dictionary [result] of [cases] before filtering. *)
Definition cases_table (w : FS) : gmap string (option string * list string) :=
  let result : gmap string (option string * list string) := ∅ in
  let result :=
    if is_dir host w CASES_DIR then
      let result := foldl (scan_manifest w) result (rglob host w CASES_DIR manifest_toml) in
      foldl (scan_collection w) result (iterdir host w CASES_DIR)
    else result in
  let result :=
    foldl (λ result remote_path,
             let '(case_name, coll_name) := remote_entry remote_path in
             add_if_new case_name (coll_name, []) result)
          result (list_remote_cases host w) in
  foldl (λ result name, add_if_new name (None, []) result)
        result (list_cached_cases host w).

(** The test of the filtering loop of [cases]. *)
Definition passes_filters (collection tag : option string)
    (entry : option string * list string) : bool :=
  match collection with
  | Some c => bool_decide (entry.1 = Some c)
  | None => true
  end
  && match tag with
     | Some t => bool_decide (t ∈ entry.2)
     | None => true
     end.

(** [sorted(l)] on strings. *)
Definition sorted (l : list string) : list string := merge_sort String.le l.

Definition cases (w : FS) (collection tag : option string) : list string :=
  let filtered :=
    (map_to_list (cases_table w)) ≫= (λ item,
      if passes_filters collection tag item.2 then [item.1] else []) in
  sorted filtered.

Definition collections (w : FS) : list string :=
  let result : gset string :=
    if is_dir host w CASES_DIR then
      foldl (λ (result : gset string) entry,
               if is_dir host w entry && negb (PyStr.startswith (PyPath.name entry) ".")
               then
                 if is_file host w (entry // "collection.toml")
                 then {[PyPath.name entry]} ∪ result
                 else if existsb (λ e, negb (PyStr.startswith (PyPath.name e) ".")
                                       && is_dir host w e)
                           (iterdir host w entry)
                 then {[PyPath.name entry]} ∪ result
                 else result
               else result)
            ∅ (iterdir host w CASES_DIR)
    else ∅ in
  sorted (elements result).

(** ** [load] *)

(** The candidates of the search by bare name. *)
Definition bundled_match (case_dir : Path) : Match :=
  BundledMatch
    (if bool_decide (PyPath.parent case_dir ≠ CASES_DIR)
     then PyPath.name (PyPath.parent case_dir) else "(root)")
    case_dir.

Definition remote_match (remote_path : string) : Match :=
  RemoteMatch
    (if PyStr.contains "/" remote_path
     then default "" (head (PyStr.split "/" remote_path)) else "(root)")
    remote_path.

Definition collect_matches (w : FS) (name_or_path : string) : result (list Match) :=
  case_dirs ← _find_case_in_collections host w name_or_path;
  remote_path ← _find_remote_case_by_name host w name_or_path;
  Ok ((bundled_match <$> case_dirs)
      ++ match remote_path with
         | Some p => if bool_decide (p = "") then [] else [remote_match p]
         | None => []
         end).

(** [f"{source_type}:{coll}"] *)
Definition source_label (m : Match) : string :=
  source_type m +:+ ":" +:+ match_collection m.

(** Step 3 of [load]: the search by bare name. *)
Definition load_by_name (name_or_path : string) : M FS CaseBundle :=
  matches ← reads (λ w, collect_matches w name_or_path);
  if bool_decide (1 < List.length matches) then
    let sources := source_label <$> matches in
    raise (ValueError
      [Text "Ambiguous case name '"; Text name_or_path;
       Text "' found in multiple locations: "; ListRepr sources;
       Text ". Use 'collection/case' format to specify."])
  else
    match matches with
    | [BundledMatch _ case_dir] =>
        reads (_load_bundled_case host name_or_path case_dir)
    | [RemoteMatch _ remote_path] => _load_remote_case host remote_path
    | _ =>
        available ← gets (λ w, cases w None None);
        raise (ValueError
          [Text "Unknown case: '"; Text name_or_path;
           Text "'. Available: "; Text (PyStr.join ", " (take 10 available))])
    end.

(** Step 2 of [load]: [collection/case]; [None] when it falls through. *)
Definition load_by_collection_path (name_or_path : string)
    : M FS (option CaseBundle) :=
  let parts := PyStr.split "/" name_or_path in
  reads (λ _, for_each _validate_path_component parts);;
  let bundled_dir := PyPath.joinpath CASES_DIR parts in
  inside ← reads (λ w,
    if is_dir host w bundled_dir
    then resolves_inside host w bundled_dir CASES_DIR
    else Ok false);
  if inside : bool then
    case ← reads (_load_bundled_case host (List.last parts "") bundled_dir);
    mret (Some case)
  else
    remote ← gets (λ w, is_remote_case host w name_or_path);
    if remote : bool then
      case ← _load_remote_case host name_or_path;
      mret (Some case)
    else mret None.

Definition load (name_or_path : string) : M FS CaseBundle :=
  let path := PyPath.of_str name_or_path in
  local ← gets (λ w, is_dir host w path);
  if local : bool then reads (_load_local_case host path)
  else
    found ← (if PyStr.contains "/" name_or_path
             then load_by_collection_path name_or_path
             else mret None);
    match found with
    | Some case => mret case
    | None => load_by_name name_or_path
    end.

End Catalogue.

(** ** Export *)

Definition newline : string := String (ascii_of_nat 10) EmptyString.

Section ExportCase.

Context {FS : Type} (host : Host FS).

(** The paths [Path(root) / file] of the loop over [os.walk]. *)
Definition walked_files (w : FS) (case_path : Path) : list Path :=
  walk host w case_path ≫= (λ '(root, files),
    (λ file, PyPath.of_str root // file) <$> files).

(** The loop that fills [file_list] and sums [total_size]. *)
Definition measure (w : FS) (case_path : Path) : result (Z * list Path) :=
  foldlM (λ '(total_size, file_list) filepath,
            size ← stat_size host w filepath;
            Ok ((total_size + size)%Z, file_list ++ [filepath]))
         (0%Z, []) (walked_files w case_path).

(** [dest_dir = Path(dest).absolute() / case.name] *)
Definition export_dest_dir (w : FS) (dest : string) (case : CaseBundle) : Path :=
  absolute host w (PyPath.of_str dest) // cb_name case.

Definition export_case (case_name dest : string) (overwrite : bool)
    : M FS string :=
  case ← load host case_name;
  dest_dir ← gets (λ w, export_dest_dir w dest case);
  present ← gets (λ w, path_exists host w dest_dir);
  if present && negb overwrite then
    raise (FileExistsError
      [Text "Directory exists: "; Text (PyPath.str dest_dir); Text newline;
       Text "Use overwrite=True to replace existing directory"])
  else
    let case_path := PyPath.of_str (cb_dir case) in
    '(total_size, file_list) ← reads (λ w, measure w case_path);
    let show_progress := bool_decide (PROGRESS_THRESHOLD_BYTES < total_size)%Z in
    (if show_progress then
       emit (EPrint [Text "Exporting "; Text (cb_name case); Text " (";
                     MegaBytes total_size; Text " MB)..."])
     else mret ());;
    present ← gets (λ w, path_exists host w dest_dir);
    (if present && overwrite
     then acts (ERmtree dest_dir) (rmtree host dest_dir)
     else mret ());;
    acts (ECopytree case_path dest_dir) (copytree host case_path dest_dir);;
    emit (EPrint [Text "Exported "; Text (cb_name case); Text " → ";
                  Text (PyPath.str dest_dir)]);;
    emit (EPrint [Text "Copied "; Count (List.length file_list);
                  Text " files ("; MegaBytes total_size; Text " MB)"]);;
    mret (PyPath.str dest_dir).

(** ** Legacy accessors *)

Definition deprecation_message (name : string) : message :=
  [Text name; Text "() is deprecated. Use load('"; Text name;
   Text ("') instead." +:+ newline +:+ newline +:+ "Old API:" +:+ newline
         +:+ "  case = ");
   Text name;
   Text ("()" +:+ newline +:+ "  case.raw" +:+ newline +:+ newline
         +:+ "New API:" +:+ newline +:+ "  case = load('");
   Text name;
   Text ("')" +:+ newline +:+ "  case.raw")].

(** The function [fn] made by [_make_legacy_case_fn(name)], run with
    the module's set [_deprecation_warned]: the computation it performs
    and the set it leaves. *)
Definition _make_legacy_case_fn (name : string) (_deprecation_warned : gset string)
    : M FS CaseBundle * gset string :=
  if bool_decide (name ∉ _deprecation_warned) then
    (emit (EWarn "DeprecationWarning" (deprecation_message name));;
     load host name,
     {[name]} ∪ _deprecation_warned)
  else (load host name, _deprecation_warned).

Definition ieee14 := _make_legacy_case_fn "ieee14".
Definition ieee39 := _make_legacy_case_fn "ieee39".
Definition ieee118 := _make_legacy_case_fn "ieee118".
Definition ACTIVSg2000 := _make_legacy_case_fn "ACTIVSg2000".
Definition ACTIVSg10k := _make_legacy_case_fn "ACTIVSg10k".
Definition ACTIVSg70k := _make_legacy_case_fn "ACTIVSg70k".
Definition case5 := _make_legacy_case_fn "case5".
Definition case9 := _make_legacy_case_fn "case9".
Definition npcc := _make_legacy_case_fn "npcc".
Definition two_bus_branch := _make_legacy_case_fn "two_bus_branch".
Definition two_bus_transformer := _make_legacy_case_fn "two_bus_transformer".
Definition ieee14_fault := _make_legacy_case_fn "ieee14_fault".
Definition ieee14_island := _make_legacy_case_fn "ieee14_island".
Definition ieee39_nopq31 := _make_legacy_case_fn "ieee39_nopq31".
Definition ieee39_rt := _make_legacy_case_fn "ieee39_rt".

(** The accessors with the case name each was made for. *)
Definition legacy_accessors
    : list (string * (gset string → M FS CaseBundle * gset string)) :=
  [("ieee14", ieee14); ("ieee39", ieee39); ("ieee118", ieee118);
   ("ACTIVSg2000", ACTIVSg2000); ("ACTIVSg10k", ACTIVSg10k);
   ("ACTIVSg70k", ACTIVSg70k); ("case5", case5); ("case9", case9);
   ("npcc", npcc); ("two_bus_branch", two_bus_branch);
   ("two_bus_transformer", two_bus_transformer);
   ("ieee14_fault", ieee14_fault); ("ieee14_island", ieee14_island);
   ("ieee39_nopq31", ieee39_nopq31); ("ieee39_rt", ieee39_rt)].

End ExportCase.

(** ** A small concrete host

    A world given by finite lists, used to run the definitions on
    examples: directories, files with their sizes, symbolic links with
    the path each resolves to, paths on which [resolve] fails with
    [OSError], parsed manifests, the remote registry and the cache. *)
Module Toy.

Record FS := mkFS {
  dirs : list Path;
  files : list (Path * Z);
  links : list (Path * Path);
  denied : list Path;
  manifests : list (Path * Manifest);
  remote : list string;
  cached : list string }.

Definition pkg : Path := mkPath "/" ["pkg"; "powerfulcases"].
Definition cache_root : Path := mkPath "/" ["home"; ".powerfulcases"].

Definition lookup_path {A} (p : Path) (l : list (Path * A)) : option A :=
  snd <$> List.find (λ x, bool_decide (x.1 = p)) l.

Definition t_is_dir (w : FS) (p : Path) : bool := bool_decide (p ∈ dirs w).
Definition t_is_file (w : FS) (p : Path) : bool := bool_decide (p ∈ (files w).*1).
Definition t_exists (w : FS) (p : Path) : bool := t_is_dir w p || t_is_file w p.

Definition t_iterdir (w : FS) (p : Path) : list Path :=
  List.filter (λ q, bool_decide (PyPath.parent q = p) && negb (bool_decide (q = p)))
    (dirs w ++ (files w).*1).

Definition t_rglob (w : FS) (p : Path) (pattern : string) : list Path :=
  List.filter (λ q, bool_decide (PyPath.name q = pattern) && PyPath.is_relative_to q p)
    (files w).*1.

Definition t_resolve (w : FS) (p : Path) : result Path :=
  if bool_decide (p ∈ denied w)
  then Raise (OSError [Text "[Errno 5] Input/output error: "; Text (PyPath.str p)])
  else Ok (default p (lookup_path p (links w))).

Definition t_walk (w : FS) (p : Path) : list (string * list string) :=
  (λ d, (PyPath.str d,
         PyPath.name <$> List.filter (λ f, bool_decide (PyPath.parent f = d)) (files w).*1))
  <$> List.filter (λ d, PyPath.is_relative_to d p) (dirs w).

Definition t_stat_size (w : FS) (p : Path) : result Z :=
  match lookup_path p (files w) with
  | Some z => Ok z
  | None => Raise (FileNotFoundError [Text "No such file: "; Text (PyPath.str p)])
  end.

Definition t_parse_manifest (w : FS) (p : Path) : result Manifest :=
  match lookup_path p (manifests w) with
  | Some m => Ok m
  | None => Raise (ManifestError [Text "Cannot parse "; Text (PyPath.str p)])
  end.

Definition t_infer_manifest (w : FS) (d : Path) : result Manifest :=
  Ok {| m_files := []; m_credits := None; m_collection := None; m_tags := Some [] |}.

Definition t_cached_dir (name : string) : Path :=
  PyPath.joinpath cache_root (PyStr.split "/" name).

Definition t_download (name : string) (w : FS) : result unit * FS :=
  (Ok (), mkFS (dirs w ++ [t_cached_dir name]) (files w) (links w) (denied w)
               (manifests w) (remote w) (cached w ++ [name])).

(** [p] moved from below [src] to below [dst]. *)
Definition rebase (src dst p : Path) : Path :=
  mkPath (anchor dst) (parts dst ++ drop (List.length (parts src)) (parts p)).

Definition t_rmtree (p : Path) (w : FS) : result unit * FS :=
  if t_exists w p then
    (Ok (), mkFS (List.filter (λ q, negb (PyPath.is_relative_to q p)) (dirs w))
                 (List.filter (λ f, negb (PyPath.is_relative_to f.1 p)) (files w))
                 (links w) (denied w) (manifests w) (remote w) (cached w))
  else (Raise (FileNotFoundError [Text "No such directory: "; Text (PyPath.str p)]), w).

Definition t_copytree (src dst : Path) (w : FS) : result unit * FS :=
  if t_exists w dst then
    (Raise (FileExistsError [Text "File exists: "; Text (PyPath.str dst)]), w)
  else
    (Ok (), mkFS (dirs w ++ (rebase src dst <$>
                    List.filter (λ q, PyPath.is_relative_to q src) (dirs w)))
                 (files w ++ ((λ f, (rebase src dst f.1, f.2)) <$>
                    List.filter (λ f, PyPath.is_relative_to f.1 src) (files w)))
                 (links w) (denied w) (manifests w) (remote w) (cached w)).

Definition host : Host FS :=
  {| package_dir := pkg;
     getcwd := λ _, mkPath "/" ["home"];
     is_dir := t_is_dir;
     is_file := t_is_file;
     path_exists := t_exists;
     iterdir := t_iterdir;
     rglob := t_rglob;
     resolve := t_resolve;
     walk := t_walk;
     stat_size := t_stat_size;
     parse_manifest := t_parse_manifest;
     infer_manifest := t_infer_manifest;
     is_remote_case := λ w s, bool_decide (s ∈ remote w);
     list_remote_cases := remote;
     _download_remote := t_download;
     is_case_cached := λ w s, Ok (bool_decide (s ∈ cached w));
     get_cached_case_dir := λ w s, Ok (t_cached_dir s);
     list_cached_cases := cached;
     rmtree := t_rmtree;
     copytree := t_copytree |}.

Definition cases_dir : Path := mkPath "/" ["pkg"; "powerfulcases"; "cases"].

Definition under (p : Path) (segments : list string) : Path :=
  mkPath (anchor p) (parts p ++ segments).

Definition tagged (ts : list string) : Manifest :=
  {| m_files := []; m_credits := None; m_collection := None; m_tags := Some ts |}.

(** Two collections, each holding a case [x] with a manifest. *)
Definition twice : FS :=
  {| dirs := [cases_dir; under cases_dir ["a"]; under cases_dir ["b"];
              under cases_dir ["a"; "x"]; under cases_dir ["b"; "x"]];
     files := [(under cases_dir ["a"; "x"; "manifest.toml"], 10%Z);
               (under cases_dir ["b"; "x"; "manifest.toml"], 10%Z)];
     links := []; denied := [];
     manifests := [(under cases_dir ["a"; "x"; "manifest.toml"], tagged ["first"]);
                   (under cases_dir ["b"; "x"; "manifest.toml"], tagged ["second"])];
     remote := []; cached := [] |}.

(** One bundled case [ieee14] in a collection, one remote case. *)
Definition shipped : FS :=
  {| dirs := [cases_dir; under cases_dir ["ieee-transmission"];
              under cases_dir ["ieee-transmission"; "ieee14"];
              mkPath "/" ["home"]; mkPath "/" ["home"; "out"]];
     files := [(under cases_dir ["ieee-transmission"; "ieee14"; "manifest.toml"], 120%Z);
               (under cases_dir ["ieee-transmission"; "ieee14"; "ieee14.raw"], 4000%Z)];
     links := []; denied := [];
     manifests := [(under cases_dir ["ieee-transmission"; "ieee14"; "manifest.toml"],
                    ieee14_manifest)];
     remote := ["synthetic/ACTIVSg70k"]; cached := [] |}.

(** A link inside the bundled root that resolves to [/etc], and a
    directory on which [resolve] fails with [OSError]. *)
Definition escaping : FS :=
  {| dirs := [cases_dir; under cases_dir ["a"]; under cases_dir ["locked"];
              mkPath "/" ["etc"]];
     files := [];
     links := [(under cases_dir ["a"; "evil"], mkPath "/" ["etc"])];
     denied := [under cases_dir ["locked"]];
     manifests := []; remote := []; cached := [] |}.

(** A case [x] bundled in collection [c] and listed twice in the
    registry, under [a] and under [b]. *)
Definition two_remote : FS :=
  {| dirs := [cases_dir; under cases_dir ["c"]; under cases_dir ["c"; "x"]];
     files := []; links := []; denied := []; manifests := [];
     remote := ["a/x"; "b/x"]; cached := [] |}.

(** A case [y] bundled in collection [c] and listed once in the registry. *)
Definition bundled_and_remote : FS :=
  {| dirs := [cases_dir; under cases_dir ["c"]; under cases_dir ["c"; "y"]];
     files := []; links := []; denied := []; manifests := [];
     remote := ["a/y"]; cached := [] |}.

(** [shipped] with an earlier export of [ieee14] left under [/home/out]. *)
Definition exported : FS :=
  {| dirs := dirs shipped ++ [mkPath "/" ["home"; "out"; "ieee14"]];
     files := files shipped
              ++ [(mkPath "/" ["home"; "out"; "ieee14"; "stale.txt"], 7%Z)];
     links := []; denied := [];
     manifests := manifests shipped;
     remote := remote shipped; cached := [] |}.

End Toy.

(** The small host under an interpreter whose [Path.resolve] raises
    [RuntimeError] on a symbolic link that loops, as [pathlib] does before
    Python 3.13: the path [looping] is such a link. *)
Module ToyLoop.

Definition looping : Path := Toy.under Toy.cases_dir ["loop"].

Definition resolve_loop (w : Toy.FS) (p : Path) : result Path :=
  if bool_decide (p = looping)
  then Raise (RuntimeError [Text "Symlink loop from '"; Text (PyPath.str p);
                            Text "'"])
  else Toy.t_resolve w p.

Definition host : Host Toy.FS :=
  {| package_dir := package_dir Toy.host;
     getcwd := getcwd Toy.host;
     is_dir := is_dir Toy.host;
     is_file := is_file Toy.host;
     path_exists := path_exists Toy.host;
     iterdir := iterdir Toy.host;
     rglob := rglob Toy.host;
     resolve := resolve_loop;
     walk := walk Toy.host;
     stat_size := stat_size Toy.host;
     parse_manifest := parse_manifest Toy.host;
     infer_manifest := infer_manifest Toy.host;
     is_remote_case := is_remote_case Toy.host;
     list_remote_cases := list_remote_cases Toy.host;
     _download_remote := _download_remote Toy.host;
     is_case_cached := is_case_cached Toy.host;
     get_cached_case_dir := get_cached_case_dir Toy.host;
     list_cached_cases := list_cached_cases Toy.host;
     rmtree := rmtree Toy.host;
     copytree := copytree Toy.host |}.

End ToyLoop.

(** ** Vocabulary of the ambiguity claims *)

Section Ambiguity.

Context {FS : Type} (host : Host FS).

(** Every match of a bare name: the bundled directories found by
    [_find_case_in_collections] and every registry entry whose last
    segment is the name. *)
Definition candidates (w : FS) (name : string) : list Match :=
  match _find_case_in_collections host w name with
  | Ok case_dirs => bundled_match host <$> case_dirs
  | Raise _ => []
  end
  ++ (remote_match <$> remote_matches host w name).

(** The result is a [ValueError] whose message shows a list holding
    the [source:collection] label of every match found. *)
Definition reports_every_source {A} (r : result A) (found : list Match) : Prop :=
  ∃ m listed, r = Raise (ValueError m)
              ∧ ListRepr listed ∈ m
              ∧ ∀ c, c ∈ found → source_label c ∈ listed.

Definition ambiguous_case_error (name : string) (found : list Match) : exn :=
  ValueError
    [Text "Ambiguous case name '"; Text name;
     Text "' found in multiple locations: "; ListRepr (source_label <$> found);
     Text ". Use 'collection/case' format to specify."].

Definition ambiguous_remote_error (name : string) (paths : list string) : exn :=
  ValueError
    [Text "Ambiguous remote case '"; Text name;
     Text "' found in multiple collections: "; ListRepr paths].

End Ambiguity.

(** ** Vocabulary of the listing claim *)

Definition or_else {A} (a b : option A) : option A :=
  match a with
  | Some x => Some x
  | None => b
  end.

(** [result[x.1] = x.2], and the same guarded by [x.1 not in result]. *)
Definition table_assign (r : gmap string (option string * list string))
    (x : string * (option string * list string))
    : gmap string (option string * list string) :=
  <[x.1 := x.2]> r.

Definition table_add (r : gmap string (option string * list string))
    (x : string * (option string * list string))
    : gmap string (option string * list string) :=
  add_if_new x.1 x.2 r.

Section Listing.

Context {FS : Type} (host : Host FS).

Local Abbreviation CASES_DIR := (CASES_DIR host).

(** What the manifests found by the recursive scan contribute, in the
    order of the scan. *)
Definition manifest_entries (w : FS)
    : list (string * (option string * list string)) :=
  if is_dir host w CASES_DIR then
    rglob host w CASES_DIR manifest_toml ≫= (λ manifest_path,
      let case_dir := PyPath.parent manifest_path in
      if PyStr.startswith (PyPath.name case_dir) "." then []
      else [(PyPath.name case_dir,
             (if bool_decide (PyPath.parent case_dir = CASES_DIR) then None
              else Some (PyPath.name (PyPath.parent case_dir)),
              manifest_tags host w manifest_path))])
  else [].

(** What the directories under the collection directories contribute. *)
Definition directory_entries (w : FS)
    : list (string * (option string * list string)) :=
  if is_dir host w CASES_DIR then
    iterdir host w CASES_DIR ≫= (λ coll_dir,
      if negb (is_dir host w coll_dir)
         || PyStr.startswith (PyPath.name coll_dir) "."
      then []
      else iterdir host w coll_dir ≫= (λ case_dir,
        if is_dir host w case_dir
        then [(PyPath.name case_dir, (Some (PyPath.name coll_dir), []))]
        else []))
  else [].

Definition remote_entries (w : FS)
    : list (string * (option string * list string)) :=
  (λ remote_path, ((remote_entry remote_path).1, ((remote_entry remote_path).2, [])))
  <$> list_remote_cases host w.

Definition cached_entries (w : FS)
    : list (string * (option string * list string)) :=
  (λ name, (name, (None, []))) <$> list_cached_cases host w.

(** The first entry recorded under a name. *)
Definition first_entry (name : string)
    (l : list (string * (option string * list string)))
    : option (option string * list string) :=
  snd <$> List.find (λ x, bool_decide (x.1 = name)) l.

(** The merge as the specification words it: bundled, remote and
    cached cases in this order, the first seen under a name winning. *)
Definition merged_first_seen (w : FS) (name : string)
    : option (option string * list string) :=
  first_entry name
    (manifest_entries w ++ directory_entries w
     ++ remote_entries w ++ cached_entries w).

(** The merge of the code: among the manifests the last one scanned
    under a name wins; a later source never replaces an earlier one. *)
Definition merged_by_source (w : FS) (name : string)
    : option (option string * list string) :=
  first_entry name
    (rev (manifest_entries w) ++ directory_entries w
     ++ remote_entries w ++ cached_entries w).

(** [listing] is the sorted, duplicate-free list of the names whose
    merged entry passes the filters. *)
Definition lists_merged
    (merged : string → option (option string * list string))
    (collection tag : option string) (listing : list string) : Prop :=
  Sorted String.le listing
  ∧ NoDup listing
  ∧ ∀ name, name ∈ listing ↔
      ∃ entry, merged name = Some entry
               ∧ passes_filters collection tag entry = true.

End Listing.

(** ** Vocabulary of the export and accessor claims *)

Definition is_print (ev : Effect) : Prop := ∃ m, ev = EPrint m.
Definition is_download (ev : Effect) : Prop := ∃ n, ev = EDownload n.

(** A computation whose only effects are downloads. *)
Definition only_downloads {FS A} (m : M FS A) : Prop :=
  ∀ w ev, ev ∈ emitted (m w) → is_download ev.


(** * Vocabulary of the further properties *)

Section SearchVocabulary.

Context {FS : Type} (host : Host FS).

(** A directory that the search may return for [name]: the flat
    top-level one, or the one of a visible collection directory; it
    exists and resolves inside the directory it was looked up in. *)
Definition found_for (w : FS) (name : string) (d : Path) : Prop :=
  is_dir host w d = true
  ∧ ((d = CASES_DIR host // name
      ∧ resolves_inside host w d (CASES_DIR host) = Ok true)
     ∨ ∃ coll_dir, coll_dir ∈ iterdir host w (CASES_DIR host)
         ∧ is_dir host w coll_dir = true
         ∧ PyStr.startswith (PyPath.name coll_dir) "." = false
         ∧ d = coll_dir // name
         ∧ resolves_inside host w d coll_dir = Ok true).

End SearchVocabulary.

(** What a run did to the world it started in. *)
Section EffectVocabulary.

Context {FS : Type} (host : Host FS).

(** Nothing was changed. *)
Definition untouched {A} (o : Outcome FS A) (w : FS) : Prop :=
  emitted o = [] ∧ final o = w.

(** One case, which the cache did not hold, was downloaded, and nothing
    else was changed. *)
Definition downloaded_once {A} (o : Outcome FS A) (w : FS) : Prop :=
  ∃ p, is_case_cached host w p = Ok false
       ∧ emitted o = [EDownload p]
       ∧ final o = (_download_remote host p w).2.

End EffectVocabulary.

(** The directories that [collections] lists. *)
Section CollectionVocabulary.

Context {FS : Type} (host : Host FS).

(** The test of the loop of [collections]. *)
Definition collection_like (w : FS) (entry : Path) : bool :=
  is_dir host w entry
  && negb (PyStr.startswith (PyPath.name entry) ".")
  && (is_file host w (entry // "collection.toml")
      || existsb (λ e, negb (PyStr.startswith (PyPath.name e) ".")
                       && is_dir host w e)
           (iterdir host w entry)).

(** A visible directory with a [collection.toml] or with at least one
    visible sub-directory. *)
Definition is_collection_dir (w : FS) (entry : Path) : Prop :=
  is_dir host w entry = true
  ∧ PyStr.startswith (PyPath.name entry) "." = false
  ∧ (is_file host w (entry // "collection.toml") = true
     ∨ ∃ e, e ∈ iterdir host w entry
            ∧ PyStr.startswith (PyPath.name e) "." = false
            ∧ is_dir host w e = true).

End CollectionVocabulary.

(** The sum of a list of sizes. *)
Definition total_of (sizes : list Z) : Z := foldr Z.add 0%Z sizes.

(** The outcome [o] of a continuation, after the effects [evs] of what
    ran before it. *)
Definition with_effects {FS A} (evs : list Effect) (o : Outcome FS A)
    : Outcome FS A :=
  mkOutcome (res o) (final o) (evs ++ emitted o).

(** A path as [pathlib] builds it: a root that is empty, [/] or [//],
    and components that are not empty, not [.], and hold no separator. *)
Definition well_formed_path (p : Path) : Prop :=
  (anchor p = "" ∨ anchor p = "/" ∨ anchor p = "//")
  ∧ Forall (λ c, c ≠ "" ∧ c ≠ "." ∧ PyStr.contains "/" c = false) (parts p).
(** * Properties *)

(** ** Strings and paths *)

Module PyStrFacts.
Import PyStr.

Lemma startswith_spec s p : startswith s p = true ↔ ∃ t, s = p +:+ t.
Proof.
  revert s; induction p as [|c p IH]; intros s; simpl.
  - destruct s; (split; [intros _; eexists; reflexivity | reflexivity]).
  - destruct s as [|d s]; [split; [done | by intros [t Ht]] |].
    simpl. rewrite andb_true_iff, bool_decide_eq_true, IH.
    split.
    + intros [-> [t ->]]. by exists t.
    + intros [t Ht]. simpl in Ht. injection Ht as -> ->. eauto.
Qed.

Lemma contains_spec sub s :
  contains sub s = true ↔ ∃ a b, s = a +:+ sub +:+ b.
Proof.
  induction s as [|c s IH]; cbn [contains].
  - rewrite orb_false_r, startswith_spec. split.
    + intros [t Ht]. by exists "", t.
    + intros [a [b Hab]]. destruct a; simpl in Hab; [by exists b | done].
  - rewrite orb_true_iff, startswith_spec, IH. split.
    + intros [[t Ht] | [a [b Hab]]].
      * by exists "", t.
      * exists (String c a), b. simpl. by rewrite Hab.
    + intros [a [b Hab]]. destruct a as [|d a]; simpl in Hab.
      * left. by exists b.
      * right. exists a, b. by injection Hab.
Qed.

Lemma split_nonempty sep s : split sep s ≠ [].
Proof.
  destruct s as [|c s]; simpl; [done |].
  case_bool_decide; [done |]. by destruct (split sep s).
Qed.

Lemma second_is_spec c s :
  second_is c s = true ↔ ∃ d t, s = String d (String c t).
Proof.
  unfold second_is. destruct s as [|d [|e t]]; simpl.
  - split; [done | by intros (? & ? & ?)].
  - split; [done | by intros (? & ? & ?)].
  - case_bool_decide as He; split; try done.
    + intros _. subst. by exists d, t.
    + intros (? & ? & ?). congruence.
Qed.

End PyStrFacts.

Module PyPathFacts.
Import PyPath.

Lemma is_prefix_of_spec l1 l2 :
  is_prefix_of l1 l2 = true ↔ ∃ k, l2 = l1 ++ k.
Proof.
  revert l2; induction l1 as [|x l1 IH]; intros [|y l2]; simpl.
  - split; [by exists [] | done].
  - split; [by eexists | done].
  - split; [done | by intros [k Hk]].
  - rewrite andb_true_iff, bool_decide_eq_true, IH. split.
    + intros [-> [k ->]]. by exists k.
    + intros [k Hk]. injection Hk as -> ->. eauto.
Qed.

End PyPathFacts.

(** ** Path component validation *)

(** C2: the validator raises exactly on empty components, components
    holding [..] or a path separator, and absolute or drive-letter
    components; it rejects ["../etc"], ["a/b"] and ["/abs"] and accepts
    ["ieee14"]. *)
Theorem validate_component_exact :
  (∀ s, raises (_validate_path_component s) = true ↔ unsafe_component s)
  ∧ raises (_validate_path_component "../etc") = true
  ∧ raises (_validate_path_component "a/b") = true
  ∧ raises (_validate_path_component "/abs") = true
  ∧ _validate_path_component "ieee14" = Ok ().
Proof.
  split; [| repeat split; reflexivity].
  intros s. unfold _validate_path_component, unsafe_component, is_substring.
  rewrite <- !PyStrFacts.contains_spec.
  assert (Hsec := PyStrFacts.second_is_spec ":" s).
  assert (Hpre := PyStrFacts.startswith_spec s "/").
  case_bool_decide as He; simpl; [tauto |].
  destruct (PyStr.contains ".." s); simpl; [tauto |].
  destruct (PyStr.contains "/" s); simpl; [tauto |].
  destruct (PyStr.contains backslash s); simpl; [tauto |].
  destruct (PyStr.startswith s "/"); simpl; [tauto |].
  destruct (PyStr.second_is ":" s); simpl; [tauto |].
  split; [done |].
  intros [? | [? | [[? | ?] | [? | ?]]]]; try done.
  - by apply Hpre.
  - by apply Hsec.
Qed.


(** ** File locator *)

Section FileLocatorFacts.

Context (mf : ManifestOps).

(** C3: with no matching entry the locator raises [FileNotFoundError]
    exactly when [required] holds, listing the variants of the format
    when a variant was asked for and the formats of the bundle
    otherwise; when [required] is false it returns [None]. *)
Theorem file_unresolved_required_or_none case format format_version variant required :
  unresolved mf case format format_version variant →
  (raises (file mf case format format_version variant required) = true
     ↔ required = true)
  ∧ (required = false →
     file mf case format format_version variant required = Ok None)
  ∧ (required = true →
     ∃ m, file mf case format format_version variant required
            = Raise (FileNotFoundError m)
          ∧ match variant with
            | Some _ =>
                enumerates m "'. Available variants: "
                  (variants mf case (_normalize_format format))
            | None =>
                enumerates m "'. Available formats: " (formats mf case)
            end).
Proof.
  intros [Hentry Hdefault]. unfold file. rewrite Hentry.
  destruct variant as [v|], format_version as [fv|], required; simpl;
    try rewrite (Hdefault eq_refl eq_refl);
    (split; [done|]); (split; [done|]); intros; try done.
  - eexists; split; [done|]. by exists
      [Text "File not found for format '"; Text format;
       Text "' with variant '"; Text v; Text "' in case '"; Text (cb_name case)].
  - eexists; split; [done|]. by exists
      [Text "File not found for format '"; Text format;
       Text "' with variant '"; Text v; Text "' in case '"; Text (cb_name case)].
  - eexists; split; [done|]. by exists
      [Text "File not found for format '"; Text format;
       Text "' with version '"; Text fv; Text "' in case '"; Text (cb_name case)].
  - eexists; split; [done|]. by exists
      [Text "File not found for format '"; Text format;
       Text "' in case '"; Text (cb_name case)].
Qed.

End FileLocatorFacts.

Lemma ieee14_gentpj_unresolved :
  unresolved SpecManifest.ops ieee14_bundle "psse_dyr" None (Some "gentpj").
Proof. split; [reflexivity | discriminate]. Defined.

Lemma file_unresolved_required_or_none_witness :
  unresolved SpecManifest.ops ieee14_bundle "psse_dyr" None (Some "gentpj")
  ∧ file SpecManifest.ops ieee14_bundle "psse_dyr" None (Some "gentpj") false = Ok None.
Proof.
  split; [exact ieee14_gentpj_unresolved |].
  exact (proj1 (proj2 (file_unresolved_required_or_none SpecManifest.ops
           ieee14_bundle "psse_dyr" None (Some "gentpj") false
           ieee14_gentpj_unresolved)) eq_refl).
Defined.

Example file_ieee14_raw :
  file SpecManifest.ops ieee14_bundle "raw" None None true
  = Ok (Some "/pkg/powerfulcases/cases/ieee-transmission/ieee14/ieee14.raw").
Proof. reflexivity. Qed.

Example file_ieee14_missing_variant :
  file SpecManifest.ops ieee14_bundle "dyr" None (Some "gentpj") true
  = Raise (FileNotFoundError
      [Text "File not found for format '"; Text "dyr";
       Text "' with variant '"; Text "gentpj"; Text "' in case '"; Text "ieee14";
       Text "'. Available variants: "; Text "genrou"]).
Proof. reflexivity. Qed.

Section FileAliasFacts.

Context (mf : ManifestOps).

Lemma file_normalized_same_result case format fv var required :
  same_result (file mf case format fv var required)
              (file mf case (_normalize_format format) fv var required).
Proof.
  assert (Hidem : _normalize_format (_normalize_format format)
                  = _normalize_format format).
  { unfold _normalize_format. repeat case_bool_decide; done. }
  unfold file, variants. rewrite !Hidem.
  destruct (file_entry mf _ _ fv var) as [e|]; [done |].
  destruct var as [v|], fv as [w|]; simpl.
  1-3: destruct required; [| done]; (split; [done |]);
       eexists [Text "File not found for format '"], _, _, _;
       split; reflexivity.
  destruct (get_default_file mf _ _) as [e|]; [done |].
  destruct required; [| done]. split; [done |].
  eexists [Text "File not found for format '"], _, _, _; split; reflexivity.
Qed.

(** C4: asking for ["raw"] gives the result of asking for ["psse_raw"],
    asking for ["dyr"] that of ["psse_dyr"], for every bundle, version,
    variant and [required]; every other format is used as given. *)
Theorem file_alias_same_result case fv var required :
  same_result (file mf case "raw" fv var required)
              (file mf case "psse_raw" fv var required)
  ∧ same_result (file mf case "dyr" fv var required)
                (file mf case "psse_dyr" fv var required)
  ∧ ∀ format, format ≠ "raw" → format ≠ "dyr" →
      _normalize_format format = format.
Proof.
  split; [apply (file_normalized_same_result case "raw") |].
  split; [apply (file_normalized_same_result case "dyr") |].
  intros format H1 H2. unfold _normalize_format.
  by rewrite !bool_decide_eq_false_2.
Qed.

End FileAliasFacts.

(** ** The collection of a bundle *)

(** C10: when the manifest declares no collection, the collection is the
    name of the parent of the bundle directory, and [None] when that
    parent is named [cases]. *)
Theorem collection_inferred_from_parent (self : CaseBundle) :
  no_collection_field (cb_manifest self) →
  let parent_dir := PyPath.parent (PyPath.of_str (cb_dir self)) in
  collection self =
    if bool_decide (PyPath.name parent_dir = "cases") then None
    else Some (PyPath.name parent_dir).
Proof.
  intros Hno. unfold collection, declared_collection.
  destruct Hno as [-> | [-> | ->]]; simpl; repeat case_bool_decide; done.
Qed.

Lemma collection_inferred_from_parent_witness :
  no_collection_field (cb_manifest ieee14_bundle)
  ∧ collection ieee14_bundle = Some "ieee-transmission".
Proof.
  split; [by left |].
  exact (collection_inferred_from_parent ieee14_bundle (or_introl eq_refl)).
Defined.

(** ** Laws of the computations *)

Section MonadFacts.

Context {FS : Type}.

Lemma outcome_eq {A} (o : Outcome FS A) :
  mkOutcome (res o) (final o) (emitted o) = o.
Proof. by destruct o. Qed.

Lemma bind_gets {A B} (f : FS → A) (k : A → M FS B) w :
  (gets f ≫= k) w = k (f w) w.
Proof. unfold mbind, M_bind, bind, gets; simpl. apply outcome_eq. Qed.

Lemma bind_ret {A B} (a : A) (k : A → M FS B) w :
  (mret a ≫= k) w = k a w.
Proof. unfold mbind, M_bind, bind, mret, M_ret, ret; simpl. apply outcome_eq. Qed.

Lemma bind_reads_ok {A B} (f : FS → result A) (k : A → M FS B) w a :
  f w = Ok a → (reads f ≫= k) w = k a w.
Proof.
  intros Hf. unfold mbind, M_bind, bind, reads; simpl. rewrite Hf.
  apply outcome_eq.
Qed.

Lemma bind_reads_raise {A B} (f : FS → result A) (k : A → M FS B) w e :
  f w = Raise e → (reads f ≫= k) w = mkOutcome (Raise e) w [].
Proof. intros Hf. unfold mbind, M_bind, bind, reads; simpl. by rewrite Hf. Qed.

Lemma bind_raise {A B} (e : exn) (k : A → M FS B) w :
  (raise e ≫= k) w = mkOutcome (Raise e) w [].
Proof. done. Qed.

Lemma bind_emit {B} ev (k : unit → M FS B) w :
  (emit ev ≫= k) w
  = mkOutcome (res (k () w)) (final (k () w)) (ev :: emitted (k () w)).
Proof. done. Qed.

Lemma bind_assoc {A B C} (m : M FS A) (f : A → M FS B) (g : B → M FS C) w :
  ((m ≫= f) ≫= g) w = (m ≫= (λ a, f a ≫= g)) w.
Proof.
  unfold mbind, M_bind, bind; simpl.
  destruct (res (m w)) as [a|e]; simpl; [| done].
  destruct (res (f a (final (m w)))) as [b|e]; simpl; [| done].
  by rewrite app_assoc.
Qed.

Lemma bind_ret_r {A} (m : M FS A) w : (m ≫= mret) w = m w.
Proof.
  unfold mbind, M_bind, bind, mret, M_ret, ret; simpl.
  destruct (m w) as [[a|e] w' evs]; simpl; by rewrite ?app_nil_r.
Qed.

Lemma bind_ext {A B} (m : M FS A) (f g : A → M FS B) w :
  (∀ a w', f a w' = g a w') → (m ≫= f) w = (m ≫= g) w.
Proof.
  intros Hfg. unfold mbind, M_bind, bind.
  destruct (res (m w)); [by rewrite Hfg | done].
Qed.

End MonadFacts.

(** ** [_is_safe_subpath] *)

Section SafeSubpathFacts.

Context {FS : Type} (host : Host FS).

Lemma resolves_inside_true w child parent :
  resolves_inside host w child parent = Ok true ↔
  ∃ rc rp, resolve host w child = Ok rc ∧ resolve host w parent = Ok rp
           ∧ PyPath.is_relative_to rc rp = true.
Proof.
  unfold resolves_inside, mbind, result_bind.
  destruct (resolve host w child) as [rc|e]; [| split; [done | by intros (?&?&?&?)]].
  destruct (resolve host w parent) as [rp|e]; [| split; [done | by intros (?&?&?&?&?)]].
  split.
  - intros [= H]. by exists rc, rp.
  - intros (? & ? & [= <-] & [= <-] & ->). done.
Qed.


(** An exception of another class is not caught. *)
Lemma is_safe_subpath_propagates w child parent e :
  resolve host w child = Raise e → is_ValueError_or_OSError e = false →
  _is_safe_subpath host w child parent = Raise e.
Proof.
  intros He Hclass. unfold _is_safe_subpath, resolves_inside, mbind, result_bind.
  by rewrite He, Hclass.
Qed.

End SafeSubpathFacts.



Example is_safe_subpath_loop_raises :
  _is_safe_subpath ToyLoop.host Toy.escaping ToyLoop.looping Toy.cases_dir
  = Raise (RuntimeError [Text "Symlink loop from '";
                         Text "/pkg/powerfulcases/cases/loop"; Text "'"]).
Proof. reflexivity. Qed.

Example is_safe_subpath_link_escapes :
  _is_safe_subpath Toy.host Toy.escaping
    (Toy.under Toy.cases_dir ["a"; "evil"]) Toy.cases_dir = Ok false.
Proof. reflexivity. Qed.

Example is_safe_subpath_refused :
  _is_safe_subpath Toy.host Toy.escaping
    (Toy.under Toy.cases_dir ["locked"]) Toy.cases_dir = Ok false.
Proof. reflexivity. Qed.

Example is_safe_subpath_inside :
  _is_safe_subpath Toy.host Toy.escaping
    (Toy.under Toy.cases_dir ["a"]) Toy.cases_dir = Ok true.
Proof. reflexivity. Qed.

(** ** The routes of [load] *)

Section LoadFacts.

Context {FS : Type} (host : Host FS).

Lemma validate_raises_ValueError s e :
  _validate_path_component s = Raise e → class_of e = CValueError.
Proof.
  unfold _validate_path_component.
  repeat (case_bool_decide || case_match); by intros [= <-].
Qed.

Lemma for_each_validate_ok parts :
  for_each _validate_path_component parts = Ok ()
  ↔ Forall (λ part, _validate_path_component part = Ok ()) parts.
Proof.
  induction parts as [|p parts IH]; simpl; [done |].
  rewrite Forall_cons, <- IH. unfold mbind, result_bind.
  destruct (_validate_path_component p) as [[]|e]; [tauto |].
  split; [done | by intros [? _]].
Qed.

Lemma for_each_validate_raise parts :
  (∃ e, for_each _validate_path_component parts = Raise e)
  ↔ Exists (λ part, raises (_validate_path_component part) = true) parts.
Proof.
  induction parts as [|p parts IH]; simpl.
  - rewrite Exists_nil. split; [by intros [e ?] | done].
  - rewrite Exists_cons, <- IH. unfold mbind, result_bind.
    destruct (_validate_path_component p) as [[]|e]; simpl.
    + split; [by right | by intros [? | ?]].
    + split; [by left | by exists e].
Qed.

Lemma for_each_validate_class parts e :
  for_each _validate_path_component parts = Raise e → class_of e = CValueError.
Proof.
  induction parts as [|p parts IH]; simpl; [done |].
  unfold mbind, result_bind.
  destruct (_validate_path_component p) as [[]|e'] eqn:Hp; [done |].
  intros [= <-]. by eapply validate_raises_ValueError.
Qed.

(** C7: [load] takes its routes in a fixed order.  An existing
    directory is loaded as a local case, with no search.  Otherwise a
    name with a slash is split into segments that are all validated
    (an unsafe segment raises [ValueError]); the bundled directory is
    loaded when it exists and resolves inside the bundled root,
    whatever the registry holds; the registry is asked only when it
    does not; and only when both fail does the search by name run.  A
    name without a slash goes straight to the search by name. *)
Theorem load_priority_order name_or_path w :
  let path := PyPath.of_str name_or_path in
  let parts := PyStr.split "/" name_or_path in
  let bundled_dir := PyPath.joinpath (CASES_DIR host) parts in
  (is_dir host w path = true →
     load host name_or_path w = reads (_load_local_case host path) w)
  ∧ (is_dir host w path = false → PyStr.contains "/" name_or_path = true →
     (Exists (λ part, raises (_validate_path_component part) = true) parts →
        ∃ e, class_of e = CValueError
             ∧ load host name_or_path w = mkOutcome (Raise e) w [])
     ∧ (Forall (λ part, _validate_path_component part = Ok ()) parts →
        (is_dir host w bundled_dir = true →
         resolves_inside host w bundled_dir (CASES_DIR host) = Ok true →
           load host name_or_path w
           = reads (_load_bundled_case host (List.last parts "") bundled_dir) w)
        ∧ (is_dir host w bundled_dir = false
           ∨ resolves_inside host w bundled_dir (CASES_DIR host) = Ok false →
           (is_remote_case host w name_or_path = true →
              load host name_or_path w = _load_remote_case host name_or_path w)
           ∧ (is_remote_case host w name_or_path = false →
              load host name_or_path w = load_by_name host name_or_path w))))
  ∧ (is_dir host w path = false → PyStr.contains "/" name_or_path = false →
     load host name_or_path w = load_by_name host name_or_path w).
Proof.
  intros path parts bundled_dir. unfold load. fold path.
  split; [| split].
  - intros Hdir. by rewrite bind_gets, Hdir.
  - intros Hdir Hslash. rewrite bind_gets, Hdir, Hslash.
    unfold load_by_collection_path. fold parts. fold bundled_dir.
    split.
    + intros [e He]%for_each_validate_raise. exists e.
      split; [by eapply for_each_validate_class |].
      rewrite bind_assoc. by erewrite bind_reads_raise.
    + intros Hvalid%for_each_validate_ok. 
      rewrite bind_assoc. erewrite bind_reads_ok by exact Hvalid.
      rewrite bind_assoc.
      split.
      * intros Hbd Hin. erewrite bind_reads_ok by (by rewrite Hbd).
        simpl. rewrite bind_assoc.
        rewrite (bind_ext _ _ mret) by (intros; by rewrite bind_ret). apply bind_ret_r.
      * intros Hout.
        assert ((if is_dir host w bundled_dir
                 then resolves_inside host w bundled_dir (CASES_DIR host)
                 else Ok false) = Ok false) as Hread.
        { destruct Hout as [-> | Hr]; [done |].
          rewrite Hr. by destruct (is_dir host w bundled_dir). }
        split; intros Hrem.
        -- erewrite bind_reads_ok by exact Hread.
           simpl. rewrite bind_assoc, bind_gets, Hrem, bind_assoc.
           rewrite (bind_ext _ _ mret) by (intros; by rewrite bind_ret).
           apply bind_ret_r.
        -- erewrite bind_reads_ok by exact Hread.
           simpl. rewrite bind_assoc, bind_gets, Hrem. by rewrite bind_ret.
  - intros Hdir Hslash. rewrite bind_gets, Hdir, Hslash. by rewrite bind_ret.
Qed.

End LoadFacts.


Lemma load_priority_order_witness :
  load Toy.host "ieee-transmission/ieee14" Toy.shipped
  = reads (_load_bundled_case Toy.host "ieee14"
             (Toy.under Toy.cases_dir ["ieee-transmission"; "ieee14"])) Toy.shipped.
Proof.
  destruct (load_priority_order Toy.host "ieee-transmission/ieee14" Toy.shipped)
    as (_ & Hslash & _).
  destruct (Hslash eq_refl eq_refl) as [_ Hvalid].
  destruct Hvalid as [Hbundled _]; [by repeat constructor |].
  by apply Hbundled.
Defined.
(** ** Ambiguous names *)

Section AmbiguityFacts.

Context {FS : Type} (host : Host FS).

Lemma find_case_validates w name case_dirs :
  _find_case_in_collections host w name = Ok case_dirs →
  _validate_path_component name = Ok ().
Proof.
  unfold _find_case_in_collections, mbind, result_bind.
  by destruct (_validate_path_component name) as [[]|e].
Qed.

Lemma remote_match_nonempty w name p :
  _validate_path_component name = Ok () →
  p ∈ remote_matches host w name → p ≠ "".
Proof.
  intros Hvalid Hp ->. unfold remote_matches in Hp.
  apply list_elem_of_In, filter_In in Hp as [_ Hname].
  apply bool_decide_eq_true in Hname. cbv in Hname. subst name.
  discriminate Hvalid.
Qed.

Lemma collect_matches_few_remote w name case_dirs :
  _find_case_in_collections host w name = Ok case_dirs →
  (List.length (remote_matches host w name) ≤ 1)%nat →
  collect_matches host w name = Ok (candidates host w name).
Proof.
  intros Hfind Hfew. unfold collect_matches, candidates. rewrite Hfind.
  assert (Hvalid := find_case_validates _ _ _ Hfind).
  unfold mbind, result_bind, _find_remote_case_by_name.
  assert (Hne := remote_match_nonempty w name).
  destruct (remote_matches host w name) as [|p [|q rest]]; simpl in *;
    [done | | lia].
  rewrite bool_decide_eq_false_2; [done |].
  apply Hne; [done | by left].
Qed.

Lemma collect_matches_many_remote w name case_dirs :
  _find_case_in_collections host w name = Ok case_dirs →
  (2 ≤ List.length (remote_matches host w name))%nat →
  collect_matches host w name
  = Raise (ambiguous_remote_error name (remote_matches host w name)).
Proof.
  intros Hfind Hmany. unfold collect_matches. rewrite Hfind.
  unfold mbind, result_bind, _find_remote_case_by_name.
  by rewrite bool_decide_eq_true_2 by lia.
Qed.

(** C1 (amended): a bare name with two or more matches never loads.
    When at most one registry entry bears the name, [load] raises the
    ambiguous-case [ValueError] that lists the [source:collection]
    label of every match; when two or more registry entries bear it,
    the [ValueError] comes from the registry lookup and lists those
    registry paths.  Nothing is downloaded in either case. *)
Theorem load_ambiguous_name_raises name w case_dirs :
  is_dir host w (PyPath.of_str name) = false →
  PyStr.contains "/" name = false →
  _find_case_in_collections host w name = Ok case_dirs →
  (2 ≤ List.length (candidates host w name))%nat →
  ((List.length (remote_matches host w name) ≤ 1)%nat →
     load host name w
     = mkOutcome (Raise (ambiguous_case_error name (candidates host w name))) w [])
  ∧ ((2 ≤ List.length (remote_matches host w name))%nat →
     load host name w
     = mkOutcome (Raise (ambiguous_remote_error name (remote_matches host w name)))
         w []).
Proof.
  intros Hdir Hslash Hfind Htwo.
  unfold load. rewrite bind_gets, Hdir, Hslash, bind_ret.
  unfold load_by_name. split; intros Hrem.
  - erewrite bind_reads_ok by by eapply collect_matches_few_remote.
    by rewrite bool_decide_eq_true_2 by lia.
  - by erewrite bind_reads_raise by by eapply collect_matches_many_remote.
Qed.

End AmbiguityFacts.

Lemma load_ambiguous_name_raises_witness :
  load Toy.host "x" Toy.twice
  = mkOutcome
      (Raise (ValueError
         [Text "Ambiguous case name '"; Text "x";
          Text "' found in multiple locations: ";
          ListRepr ["bundled:a"; "bundled:b"];
          Text ". Use 'collection/case' format to specify."]))
      Toy.twice [].
Proof.
  refine (proj1 (load_ambiguous_name_raises Toy.host "x" Toy.twice
                   [Toy.under Toy.cases_dir ["a"; "x"];
                    Toy.under Toy.cases_dir ["b"; "x"]]
                   eq_refl eq_refl eq_refl _) _).
  - vm_compute. lia.
  - vm_compute. lia.
Defined.

Lemma load_ambiguous_name_counterexample :
  is_dir Toy.host Toy.two_remote (PyPath.of_str "x") = false
  ∧ PyStr.contains "/" "x" = false
  ∧ (2 ≤ List.length (candidates Toy.host Toy.two_remote "x"))%nat
  ∧ ¬ reports_every_source (res (load Toy.host "x" Toy.two_remote))
        (candidates Toy.host Toy.two_remote "x").
Proof.
  split; [reflexivity |]. split; [reflexivity |].
  split; [vm_compute; lia |].
  intros (m & listed & Hres & Hin & Hall).
  vm_compute in Hres. injection Hres as <-.
  assert (listed = ["a/x"; "b/x"]) as ->.
  { repeat (apply elem_of_cons in Hin as [Hin | Hin]; [try discriminate Hin |]).
    - by injection Hin.
    - by apply elem_of_nil in Hin. }
  specialize (Hall (BundledMatch "c" (Toy.under Toy.cases_dir ["c"; "x"]))).
  assert (Hc : BundledMatch "c" (Toy.under Toy.cases_dir ["c"; "x"])
               ∈ candidates Toy.host Toy.two_remote "x") by (vm_compute; left).
  apply Hall in Hc. vm_compute in Hc.
  repeat (apply elem_of_cons in Hc as [Hc | Hc]; [discriminate Hc |]).
  by apply elem_of_nil in Hc.
Qed.

Example load_bundled_and_remote_ambiguous :
  res (load Toy.host "y" Toy.bundled_and_remote)
  = Raise (ambiguous_case_error "y"
      [BundledMatch "c" (Toy.under Toy.cases_dir ["c"; "y"]);
       RemoteMatch "a" "a/y"]).
Proof. reflexivity. Qed.


(** ** The listing of cases *)

Section ListingFacts.

Context {FS : Type} (host : Host FS).

Local Abbreviation table := (gmap string (option string * list string)).

Lemma first_entry_app name l1 l2 :
  first_entry name (l1 ++ l2) = or_else (first_entry name l1) (first_entry name l2).
Proof.
  unfold first_entry. induction l1 as [|x l1 IH]; simpl; [done |].
  by destruct (bool_decide (x.1 = name)).
Qed.

Lemma foldl_bind {A B C} (f : A → B → A) (g : C → list B) (l : list C) (a : A) :
  foldl f a (l ≫= g) = foldl (λ a x, foldl f a (g x)) a l.
Proof.
  revert a; induction l as [|x l IH]; intros a; simpl; [done |].
  by rewrite foldl_app, IH.
Qed.

Lemma foldl_ext_in {A B} (f g : A → B → A) (l : list B) (a : A) :
  (∀ a x, f a x = g a x) → foldl f a l = foldl g a l.
Proof.
  intros Hfg. revert a; induction l as [|x l IH]; intros a; simpl; [done |].
  by rewrite Hfg, IH.
Qed.

(** Assignments in a loop: the last one under a key stands. *)
Lemma lookup_foldl_insert (l : list (string * (option string * list string)))
    (r : table) name :
  foldl (λ r x, <[x.1 := x.2]> r) r l !! name
  = or_else (first_entry name (rev l)) (r !! name).
Proof.
  revert r; induction l as [|x l IH]; intros r; simpl; [done |].
  rewrite IH, first_entry_app.
  destruct (first_entry name (rev l)); simpl; [done |].
  unfold first_entry; simpl. case_bool_decide as Hx; simpl.
  - by rewrite <- Hx, lookup_insert_eq.
  - by rewrite lookup_insert_ne.
Qed.

(** Guarded assignments in a loop: the first one under a key stands,
    unless the key was there before. *)
Lemma lookup_foldl_add_if_new (l : list (string * (option string * list string)))
    (r : table) name :
  foldl (λ r x, add_if_new x.1 x.2 r) r l !! name
  = or_else (r !! name) (first_entry name l).
Proof.
  revert r; induction l as [|x l IH]; intros r; simpl.
  - by destruct (r !! name).
  - rewrite IH. unfold add_if_new, first_entry; simpl.
    destruct (r !! x.1) eqn:Hr.
    + case_bool_decide as Hx; simpl; [| done].
      rewrite <- Hx, Hr. done.
    + case_bool_decide as Hx; simpl.
      * by rewrite <- Hx, lookup_insert_eq, Hr.
      * by rewrite lookup_insert_ne.
Qed.

Lemma cached_loop w (r : table) :
  foldl (λ result name, add_if_new name (None, []) result) r
    (list_cached_cases host w)
  = foldl table_add r (cached_entries host w).
Proof. unfold cached_entries. by rewrite foldl_fmap. Qed.

Lemma remote_loop w (r : table) :
  foldl (λ result remote_path,
           let '(case_name, coll_name) := remote_entry remote_path in
           add_if_new case_name (coll_name, []) result) r
    (list_remote_cases host w)
  = foldl table_add r (remote_entries host w).
Proof.
  unfold remote_entries. rewrite foldl_fmap. apply foldl_ext_in.
  intros a p. unfold table_add. by destruct (remote_entry p).
Qed.

Lemma collection_loop w (r : table) :
  is_dir host w (CASES_DIR host) = true →
  foldl (scan_collection host w) r (iterdir host w (CASES_DIR host))
  = foldl table_add r (directory_entries host w).
Proof.
  intros Hdir. unfold directory_entries. rewrite Hdir, foldl_bind.
  apply foldl_ext_in. intros a coll_dir. unfold scan_collection.
  destruct (negb (is_dir host w coll_dir) || _); [done |].
  rewrite foldl_bind. apply foldl_ext_in. intros b case_dir.
  by destruct (is_dir host w case_dir).
Qed.

Lemma manifest_loop w (r : table) :
  is_dir host w (CASES_DIR host) = true →
  foldl (scan_manifest host w) r (rglob host w (CASES_DIR host) manifest_toml)
  = foldl table_assign r (manifest_entries host w).
Proof.
  intros Hdir. unfold manifest_entries. rewrite Hdir, foldl_bind.
  apply foldl_ext_in. intros a manifest_path. unfold scan_manifest.
  by destruct (PyStr.startswith _ ".").
Qed.

Lemma manifest_entries_no_dir w :
  is_dir host w (CASES_DIR host) = false →
  manifest_entries host w = [] ∧ directory_entries host w = [].
Proof. intros Hdir. unfold manifest_entries, directory_entries. by rewrite Hdir. Qed.

Lemma cases_table_lookup w name :
  cases_table host w !! name = merged_by_source host w name.
Proof.
  unfold cases_table, merged_by_source.
  rewrite cached_loop, remote_loop. unfold table_add.
  rewrite !lookup_foldl_add_if_new, !first_entry_app.
  destruct (is_dir host w (CASES_DIR host)) eqn:Hdir.
  - rewrite collection_loop, manifest_loop by done. unfold table_add, table_assign.
    rewrite lookup_foldl_add_if_new, lookup_foldl_insert, lookup_empty.
    destruct (first_entry name (rev _)); simpl; [done |].
    destruct (first_entry name (directory_entries _ _)); simpl; done.
  - destruct (manifest_entries_no_dir w Hdir) as [-> ->]. by rewrite lookup_empty.
Qed.

Lemma cases_filtered_names w collection tag :
  map_to_list (cases_table host w) ≫= (λ item,
    if passes_filters collection tag item.2 then [item.1] else [])
  = (List.filter (λ item, passes_filters collection tag item.2)
       (map_to_list (cases_table host w))).*1.
Proof.
  induction (map_to_list (cases_table host w)) as [|x l IH]; [done |].
  rewrite bind_cons, IH. simpl.
  by destruct (passes_filters collection tag x.2).
Qed.

(** C5 (amended): [cases] returns the sorted, duplicate-free list of the
    names whose merged entry passes the collection and tag filters.
    The merge takes bundled cases with a manifest, directories under a
    collection directory, registry entries and cached cases in this
    order of precedence, the entry of the earlier source standing;
    among the manifests of one name, the last one scanned stands. *)
Theorem cases_lists_merged_by_source w collection tag :
  lists_merged (merged_by_source host w) collection tag
    (cases host w collection tag).
Proof.
  unfold lists_merged, cases, sorted.
  split; [apply Sorted_merge_sort; apply _ |].
  rewrite cases_filtered_names. split.
  - rewrite merge_sort_Permutation.
    apply (sublist_NoDup _ (map_to_list (cases_table host w)).*1);
      [apply NoDup_fst_map_to_list |].
    apply fmap_sublist. clear.
    induction (map_to_list (cases_table host w)) as [|x l IH]; simpl;
      [done |].
    destruct (passes_filters collection tag x.2); by constructor.
  - intros name. rewrite merge_sort_Permutation, list_elem_of_fmap.
    setoid_rewrite <- cases_table_lookup. split.
    + intros ([n e] & -> & Hin). apply list_elem_of_In, filter_In in Hin as [Hin Hp].
      apply list_elem_of_In, elem_of_map_to_list in Hin. by exists e.
    + intros (e & He & Hp). exists (name, e). split; [done |].
      apply list_elem_of_In, filter_In. split; [| done].
      by apply list_elem_of_In, elem_of_map_to_list.
Qed.

End ListingFacts.

Lemma cases_first_seen_counterexample :
  ¬ lists_merged (merged_first_seen Toy.host Toy.twice) (Some "a") None
      (cases Toy.host Toy.twice (Some "a") None).
Proof.
  intros (_ & _ & Hmem).
  assert (Hx : "x" ∈ cases Toy.host Toy.twice (Some "a") None).
  { apply Hmem. exists (Some "a", ["first"]). by vm_compute. }
  vm_compute in Hx. by apply elem_of_nil in Hx.
Qed.

Example cases_twice_by_collection :
  cases Toy.host Toy.twice (Some "a") None = []
  ∧ cases Toy.host Toy.twice (Some "b") None = ["x"]
  ∧ cases Toy.host Toy.twice None (Some "second") = ["x"].
Proof. by vm_compute. Qed.

Example cases_shipped :
  cases Toy.host Toy.shipped None None = ["ACTIVSg70k"; "ieee14"].
Proof. by vm_compute. Qed.

(** ** Effects of [load] *)

Section LoadEffects.

Context {FS : Type} (host : Host FS).

Lemma only_downloads_ret {A} (a : A) : only_downloads (mret a : M FS A).
Proof. intros w ev Hin. by apply elem_of_nil in Hin. Qed.

Lemma only_downloads_raise {A} e : only_downloads (raise e : M FS A).
Proof. intros w ev Hin. by apply elem_of_nil in Hin. Qed.

Lemma only_downloads_reads {A} (f : FS → result A) : only_downloads (reads f).
Proof. intros w ev Hin. by apply elem_of_nil in Hin. Qed.

Lemma only_downloads_gets {A} (f : FS → A) : only_downloads (gets f).
Proof. intros w ev Hin. by apply elem_of_nil in Hin. Qed.

Lemma only_downloads_acts n f : only_downloads (acts (FS:=FS) (EDownload n) f).
Proof.
  intros w ev Hin. apply list_elem_of_singleton in Hin as ->. by exists n.
Qed.

Lemma only_downloads_bind {A B} (m : M FS A) (k : A → M FS B) :
  only_downloads m → (∀ a, only_downloads (k a)) → only_downloads (m ≫= k).
Proof.
  intros Hm Hk w ev. unfold mbind, M_bind, bind.
  destruct (res (m w)) as [a|e]; simpl.
  - rewrite elem_of_app. intros [Hin | Hin]; [by eapply Hm | by eapply Hk].
  - by apply Hm.
Qed.

Lemma load_remote_only_downloads name : only_downloads (_load_remote_case host name).
Proof.
  unfold _load_remote_case.
  repeat (apply only_downloads_bind; [| intros ?]);
    try case_match;
    auto using @only_downloads_ret, @only_downloads_reads, only_downloads_acts.
Qed.

Lemma load_only_downloads name : only_downloads (load host name).
Proof.
  unfold load, load_by_collection_path, load_by_name.
  repeat first
    [ apply only_downloads_ret | apply only_downloads_raise
    | apply only_downloads_reads | apply only_downloads_gets
    | apply load_remote_only_downloads
    | apply only_downloads_bind; [| intros ?]
    | case_match ].
Qed.

End LoadEffects.

(** ** Export onto an existing destination *)

Section ExportFacts.

Context {FS : Type} (host : Host FS).

Lemma bind_run {A B} (m : M FS A) (k : A → M FS B) w a :
  res (m w) = Ok a →
  (m ≫= k) w
  = mkOutcome (res (k a (final (m w)))) (final (k a (final (m w))))
      (emitted (m w) ++ emitted (k a (final (m w)))).
Proof. intros Hm. unfold mbind, M_bind, bind. by rewrite Hm. Qed.

Lemma bind_acts {B} ev f (k : unit → M FS B) (w : FS) :
  (acts ev f ≫= k) w
  = match (f w).1 with
    | Ok _ =>
        mkOutcome (res (k () (f w).2)) (final (k () (f w).2))
          (ev :: emitted (k () (f w).2))
    | Raise e => mkOutcome (Raise e) (f w).2 [ev]
    end.
Proof.
  unfold mbind, M_bind, bind, acts; simpl. by destruct (f w).1 as [[]|e].
Qed.

End ExportFacts.

Example export_overwrite_replaces :
  let run := export_case Toy.host "ieee14" "out" true Toy.exported in
  res run = Ok "/home/out/ieee14"
  ∧ emitted run
    = [ERmtree (mkPath "/" ["home"; "out"; "ieee14"]);
       ECopytree (Toy.under Toy.cases_dir ["ieee-transmission"; "ieee14"])
                 (mkPath "/" ["home"; "out"; "ieee14"]);
       EPrint [Text "Exported "; Text "ieee14"; Text " → "; Text "/home/out/ieee14"];
       EPrint [Text "Copied "; Count 2; Text " files ("; MegaBytes 4120;
               Text " MB)"]]
  ∧ is_file Toy.host (final run) (mkPath "/" ["home"; "out"; "ieee14"; "stale.txt"])
    = false
  ∧ is_file Toy.host (final run) (mkPath "/" ["home"; "out"; "ieee14"; "ieee14.raw"])
    = true.
Proof. by vm_compute. Qed.

(** ** Legacy accessors *)

Section LegacyFacts.

Context {FS : Type} (host : Host FS).

Lemma legacy_accessor_made name fn :
  (name, fn) ∈ legacy_accessors host → fn = _make_legacy_case_fn host name.
Proof.
  unfold legacy_accessors. intros Hin.
  repeat (apply elem_of_cons in Hin as [Hin | Hin];
          [by injection Hin as -> -> |]).
  by apply elem_of_nil in Hin.
Qed.

(** C9: a legacy accessor returns what [load] returns for its case
    name and leaves the world as [load] leaves it; the one difference
    is a [DeprecationWarning] emitted before the load when the name
    has not been warned about yet, after which the name is recorded so
    that later calls stay silent. *)
Theorem legacy_accessor_is_load name fn (_deprecation_warned : gset string) w :
  (name, fn) ∈ legacy_accessors host →
  let run := (fn _deprecation_warned).1 w in
  res run = res (load host name w)
  ∧ final run = final (load host name w)
  ∧ emitted run
    = (if bool_decide (name ∈ _deprecation_warned) then []
       else [EWarn "DeprecationWarning" (deprecation_message name)])
      ++ emitted (load host name w)
  ∧ (fn _deprecation_warned).2 = {[name]} ∪ _deprecation_warned.
Proof.
  intros ->%legacy_accessor_made. unfold _make_legacy_case_fn.
  case_bool_decide as Hnew.
  - rewrite bool_decide_eq_false_2 by done.
    unfold mbind, M_bind, bind, emit; simpl.
    by destruct (load host name w) as [[c|e] w' evs].
  - rewrite bool_decide_eq_true_2 by done. simpl.
    repeat split; try done.
  symmetry. apply subseteq_union_1_L. by apply singleton_subseteq_l.
Qed.

End LegacyFacts.

Lemma ieee14_is_legacy_accessor :
  ("ieee14", ieee14 Toy.host) ∈ legacy_accessors Toy.host.
Proof. by left. Defined.

Lemma legacy_accessor_is_load_witness :
  let run := (ieee14 Toy.host ∅).1 Toy.shipped in
  res run = res (load Toy.host "ieee14" Toy.shipped)
  ∧ final run = final (load Toy.host "ieee14" Toy.shipped)
  ∧ emitted run
    = EWarn "DeprecationWarning" (deprecation_message "ieee14")
      :: emitted (load Toy.host "ieee14" Toy.shipped).
Proof.
  destruct (legacy_accessor_is_load Toy.host "ieee14" (ieee14 Toy.host) ∅
              Toy.shipped ieee14_is_legacy_accessor) as (Hres & Hfinal & Hev & _).
  split; [exact Hres |]. split; [exact Hfinal |]. exact Hev.
Defined.

Example legacy_second_call_silent :
  let warned := (ieee14 Toy.host ∅).2 in
  emitted ((ieee14 Toy.host ∅).1 Toy.shipped)
  = [EWarn "DeprecationWarning" (deprecation_message "ieee14")]
  ∧ emitted ((ieee14 Toy.host warned).1 Toy.shipped) = [].
Proof. by vm_compute. Qed.

(** * Further properties *)

(** ** Validated segments stay under the root *)

Lemma validate_ok_inv s :
  _validate_path_component s = Ok () →
  s ≠ "" ∧ PyStr.contains ".." s = false ∧ PyStr.contains "/" s = false
  ∧ PyStr.contains backslash s = false.
Proof.
  unfold _validate_path_component. case_bool_decide as Hs; [done |].
  destruct (PyStr.contains ".." s); [done |].
  destruct (PyStr.contains "/" s); [done |].
  by destruct (PyStr.contains backslash s).
Qed.

Lemma split_no_separator s :
  PyStr.contains "/" s = false → PyStr.split "/" s = [s].
Proof.
  induction s as [|c s IH]; [done |].
  cbn [PyStr.contains PyStr.split]. intros [Hhead Htail]%orb_false_elim.
  rewrite IH by done. simpl in Hhead.
  destruct (decide (c = "/"%char)) as [-> | Hc].
  - rewrite bool_decide_eq_true_2 in Hhead by done. by destruct s.
  - by rewrite bool_decide_eq_false_2.
Qed.

Lemma anchor_no_separator s :
  PyStr.contains "/" s = false → PyPath.anchor_of s = "".
Proof.
  destruct s as [|c s]; [done |].
  cbn [PyStr.contains]. intros [Hhead _]%orb_false_elim. simpl in Hhead.
  unfold PyPath.anchor_of; simpl.
  destruct (decide (c = "/"%char)) as [-> | Hc].
  - rewrite bool_decide_eq_true_2 in Hhead by done. by destruct s.
  - by rewrite bool_decide_eq_false_2.
Qed.

Lemma of_str_validated s :
  _validate_path_component s = Ok () →
  PyPath.of_str s = mkPath "" (if bool_decide (s = ".") then [] else [s]).
Proof.
  intros (Hne & _ & Hslash & _)%validate_ok_inv.
  unfold PyPath.of_str. rewrite split_no_separator, anchor_no_separator by done.
  simpl. unfold PyPath.kept_component.
  rewrite (bool_decide_eq_false_2 (s = "")) by done. simpl.
  by case_bool_decide.
Qed.

(** X1: joining validated segments onto a root only appends them (a
    segment [.] is dropped): the joined path lies under the root, and no
    segment is, or holds, [..]. *)
Theorem validated_join_stays_inside (root : Path) (segments : list string) :
  Forall (λ s, _validate_path_component s = Ok ()) segments →
  PyPath.joinpath root segments
  = mkPath (anchor root)
      (parts root ++ List.filter (λ s, negb (bool_decide (s = "."))) segments)
  ∧ PyPath.is_relative_to (PyPath.joinpath root segments) root = true
  ∧ Forall (λ s, PyStr.contains ".." s = false) segments.
Proof.
  intros Hvalid.
  assert (Hjoin : PyPath.joinpath root segments
    = mkPath (anchor root)
        (parts root ++ List.filter (λ s, negb (bool_decide (s = "."))) segments)).
  { unfold PyPath.joinpath. revert root.
    induction Hvalid as [|s segments Hs _ IH]; intros root; simpl.
    - rewrite app_nil_r. by destruct root.
    - rewrite IH. unfold PyPath.div. rewrite of_str_validated by done. simpl.
      case_bool_decide; simpl; by rewrite ?app_nil_r, <- ?app_assoc. }
  split; [done |]. split.
  - rewrite Hjoin. unfold PyPath.is_relative_to; simpl.
    rewrite bool_decide_eq_true_2 by done. simpl.
    apply PyPathFacts.is_prefix_of_spec. eauto.
  - eapply Forall_impl; [exact Hvalid |]. intros s Hs.
    by apply validate_ok_inv in Hs as (_ & ? & _).
Qed.

Lemma validated_join_stays_inside_witness :
  PyPath.joinpath Toy.cases_dir ["ieee-transmission"; "."; "ieee14"]
  = Toy.under Toy.cases_dir ["ieee-transmission"; "ieee14"]
  ∧ PyPath.is_relative_to
      (PyPath.joinpath Toy.cases_dir ["ieee-transmission"; "."; "ieee14"])
      Toy.cases_dir = true.
Proof.
  destruct (validated_join_stays_inside Toy.cases_dir
              ["ieee-transmission"; "."; "ieee14"]) as (Hjoin & Hin & _).
  - by repeat constructor.
  - split; [exact Hjoin | exact Hin].
Defined.

(** ** The registry lookup by name *)

Section RemoteLookupFacts.

Context {FS : Type} (host : Host FS).

(** X2: [_find_remote_case_by_name] returns a registry path exactly when
    it is the one entry of the registry whose last segment is the name,
    returns [None] exactly when there is none, and raises [ValueError]
    exactly when there are two or more, a repeated entry counting twice. *)
Theorem find_remote_case_by_name_unique w name :
  (∀ p, _find_remote_case_by_name host w name = Ok (Some p)
        ↔ remote_matches host w name = [p])
  ∧ (_find_remote_case_by_name host w name = Ok None
     ↔ remote_matches host w name = [])
  ∧ (raises (_find_remote_case_by_name host w name) = true
     ↔ (2 ≤ List.length (remote_matches host w name))%nat)
  ∧ (∀ p, p ∈ remote_matches host w name
          ↔ p ∈ list_remote_cases host w ∧ remote_case_name p = name).
Proof.
  unfold _find_remote_case_by_name.
  split; [| split; [| split]].
  - intros p. destruct (remote_matches host w name) as [|q [|r rest]]; simpl.
    + split; intros [=].
    + split; intros [=]; by subst.
    + split; intros [=].
  - destruct (remote_matches host w name) as [|q [|r rest]]; simpl;
      split; intros [=]; done.
  - destruct (remote_matches host w name) as [|q [|r rest]]; simpl;
      split; (done || lia).
  - intros p. unfold remote_matches.
    rewrite list_elem_of_In, filter_In, bool_decide_eq_true, <- list_elem_of_In.
    done.
Qed.

End RemoteLookupFacts.

Example find_remote_repeated_entry :
  raises (_find_remote_case_by_name Toy.host
            (Toy.mkFS [] [] [] [] [] ["a/x"; "a/x"] []) "x") = true.
Proof. reflexivity. Qed.

(** ** The search of the bundled collections *)

Section BundledSearchFacts.

Context {FS : Type} (host : Host FS).

Lemma foldlM_invariant {A B} (P : A → Prop) (f : A → B → result A) l a b :
  foldlM f a l = Ok b →
  P a →
  (∀ a x a', x ∈ l → P a → f a x = Ok a' → P a') →
  P b.
Proof.
  revert a; induction l as [|x l IH]; intros a; simpl.
  - by intros [= <-].
  - unfold mbind, result_bind. destruct (f a x) as [a'|e] eqn:Hf; [| done].
    intros Hfold Ha Hstep. eapply IH; [exact Hfold | |].
    + eapply Hstep; [by left | exact Ha | exact Hf].
    + intros a0 y a1 Hy. apply Hstep. by right.
Qed.

Lemma find_case_in_collections_found w name :
  (∀ e, _validate_path_component name = Raise e →
        _find_case_in_collections host w name = Raise e)
  ∧ (_validate_path_component name = Ok () →
     is_dir host w (CASES_DIR host) = false →
     _find_case_in_collections host w name = Ok [])
  ∧ (∀ dirs, _find_case_in_collections host w name = Ok dirs →
       _validate_path_component name = Ok ()
       ∧ Forall (found_for host w name) dirs).
Proof.
  unfold _find_case_in_collections, mbind, result_bind.
  split; [| split].
  - by intros e ->.
  - by intros -> ->.
  - intros dirs. destruct (_validate_path_component name) as [[]|e]; [| done].
    destruct (is_dir host w (CASES_DIR host)); simpl;
      [| intros [= <-]; split; [done | constructor]].
    intros Hfold. split; [done |].
    destruct (is_dir host w (CASES_DIR host // name)) eqn:Htop.
    + destruct (resolves_inside host w (CASES_DIR host // name) (CASES_DIR host))
        as [inside|e] eqn:Hin; [| done].
      eapply (foldlM_invariant (Forall (found_for host w name))); [exact Hfold | |].
      * destruct inside; [| constructor].
        constructor; [| constructor]. split; [done |]. by left.
      * intros acc coll_dir acc' Hcoll Hacc. cbv beta.
        destruct (is_dir host w coll_dir) eqn:Hcd; simpl; [| by intros [= <-]].
        destruct (PyStr.startswith (PyPath.name coll_dir) ".") eqn:Hhid;
          [by intros [= <-] |].
        destruct (is_dir host w (coll_dir // name)) eqn:Hd; [| by intros [= <-]].
        destruct (resolves_inside host w (coll_dir // name) coll_dir)
          as [[]|e] eqn:Hin'; intros [= <-]; [| done].
        apply Forall_app. split; [done |].
        constructor; [| constructor]. split; [done |]. right. by exists coll_dir.
    + eapply (foldlM_invariant (Forall (found_for host w name))); [exact Hfold | |].
      * constructor.
      * intros acc coll_dir acc' Hcoll Hacc. cbv beta.
        destruct (is_dir host w coll_dir) eqn:Hcd; simpl; [| by intros [= <-]].
        destruct (PyStr.startswith (PyPath.name coll_dir) ".") eqn:Hhid;
          [by intros [= <-] |].
        destruct (is_dir host w (coll_dir // name)) eqn:Hd; [| by intros [= <-]].
        destruct (resolves_inside host w (coll_dir // name) coll_dir)
          as [[]|e] eqn:Hin'; intros [= <-]; [| done].
        apply Forall_app. split; [done |].
        constructor; [| constructor]. split; [done |]. right. by exists coll_dir.
Qed.

Lemma div_validated (p : Path) name :
  _validate_path_component name = Ok () →
  p // name
  = mkPath (anchor p) (parts p ++ if bool_decide (name = ".") then [] else [name]).
Proof.
  intros Hvalid. unfold PyPath.div. by rewrite of_str_validated.
Qed.

(** X3: the search of the bundled collections rejects an unsafe name
    whatever the file system holds and finds nothing when the bundled
    root is missing.  What it returns are existing directories, each the
    name joined onto the bundled root or onto a visible collection
    directory, and resolving inside it.  For every accepted name but [.]
    such a directory is named after the case and lies directly in the
    root or in a collection directory; for the name [.], which the
    validator accepts, it is the root or a collection directory itself. *)
Theorem find_case_in_collections_sound w name :
  (∀ e, _validate_path_component name = Raise e →
        _find_case_in_collections host w name = Raise e)
  ∧ (_validate_path_component name = Ok () →
     is_dir host w (CASES_DIR host) = false →
     _find_case_in_collections host w name = Ok [])
  ∧ (∀ dirs, _find_case_in_collections host w name = Ok dirs →
       _validate_path_component name = Ok ()
       ∧ Forall (found_for host w name) dirs
       ∧ (name ≠ "." →
          Forall (λ d, PyPath.name d = name
                       ∧ (PyPath.parent d = CASES_DIR host
                          ∨ PyPath.parent d ∈ iterdir host w (CASES_DIR host)))
                 dirs)
       ∧ (name = "." →
          Forall (λ d, d = CASES_DIR host
                       ∨ d ∈ iterdir host w (CASES_DIR host)) dirs)).
Proof.
  destruct (find_case_in_collections_found w name) as (Hraise & Hroot & Hfound).
  split; [done |]. split; [done |].
  intros dirs Hdirs. destruct (Hfound dirs Hdirs) as [Hvalid Hall].
  split; [done |]. split; [done |].
  assert (Hjoin : ∀ p, p // name
            = mkPath (anchor p)
                (parts p ++ if bool_decide (name = ".") then [] else [name]))
    by (intros p; by apply div_validated).
  split; intros Hname; eapply Forall_impl; try exact Hall.
  - intros d [_ Hd].
    assert (Hshape : ∀ p, d = p // name →
              PyPath.name d = name ∧ PyPath.parent d = p).
    { intros [a ps] ->. rewrite Hjoin, bool_decide_eq_false_2 by done.
      unfold PyPath.name, PyPath.parent; simpl.
      by rewrite last_last, removelast_last. }
    destruct Hd as [[Hd _] | (coll_dir & Hin & _ & _ & Hd & _)].
    + destruct (Hshape _ Hd) as [? ->]. split; [done | by left].
    + destruct (Hshape _ Hd) as [? ->]. split; [done | by right].
  - intros d [_ Hd].
    assert (Hshape : ∀ p, d = p // name → d = p).
    { intros [a ps] ->. rewrite Hjoin, bool_decide_eq_true_2 by done.
      simpl. by rewrite app_nil_r. }
    destruct Hd as [[Hd _] | (coll_dir & Hin & _ & _ & Hd & _)].
    + left. by apply Hshape.
    + right. by rewrite (Hshape _ Hd).
Qed.

End BundledSearchFacts.

Example find_case_twice :
  _find_case_in_collections Toy.host Toy.twice "x"
  = Ok [Toy.under Toy.cases_dir ["a"; "x"]; Toy.under Toy.cases_dir ["b"; "x"]].
Proof. reflexivity. Qed.

Example find_case_dot :
  _find_case_in_collections Toy.host Toy.twice "."
  = Ok [Toy.cases_dir; Toy.under Toy.cases_dir ["a"];
        Toy.under Toy.cases_dir ["b"]].
Proof. reflexivity. Qed.

Example find_case_no_traversal :
  raises (_find_case_in_collections Toy.host Toy.twice "../x") = true.
Proof. reflexivity. Qed.

(** ** What [load] returns and what it changes *)

Section LoadResultFacts.

Context {FS : Type} (host : Host FS).

Lemma load_bundled_case_ok name directory w b :
  _load_bundled_case host name directory w = Ok b →
  cb_name b = name ∧ cb_dir b = PyPath.str directory ∧ cb_is_remote b = false.
Proof.
  unfold _load_bundled_case, mbind, result_bind.
  destruct (read_manifest host w directory); [| done]. by intros [= <-].
Qed.

Lemma load_local_case_ok directory w b :
  _load_local_case host directory w = Ok b →
  cb_name b = PyPath.name directory
  ∧ cb_dir b = PyPath.str (absolute host w directory)
  ∧ cb_is_remote b = false.
Proof.
  unfold _load_local_case, mbind, result_bind.
  destruct (read_manifest host w directory); [| done]. by intros [= <-].
Qed.

Lemma load_remote_case_ok name_or_path w b :
  res (_load_remote_case host name_or_path w) = Ok b →
  cb_name b = remote_case_name name_or_path ∧ cb_is_remote b = true.
Proof.
  unfold _load_remote_case, remote_case_name.
  unfold mbind, M_bind, bind, reads, gets, acts, mret, M_ret, ret; simpl.
  destruct (is_case_cached host w name_or_path) as [[]|e]; simpl; [| | done].
  - destruct (get_cached_case_dir host w name_or_path) as [d|e]; simpl; [| done].
    destruct (read_manifest host w d); simpl; [| done]. by intros [= <-].
  - destruct (_download_remote host name_or_path w) as [[[]|e] w']; simpl;
      [| done].
    destruct (get_cached_case_dir host w' name_or_path) as [d|e]; simpl; [| done].
    destruct (read_manifest host w' d); simpl; [| done]. by intros [= <-].
Qed.

Lemma remote_lookup_some w name p :
  _find_remote_case_by_name host w name = Ok (Some p) →
  p ∈ list_remote_cases host w ∧ remote_case_name p = name.
Proof.
  unfold _find_remote_case_by_name. intros Hfind.
  assert (Hp : p ∈ remote_matches host w name).
  { destruct (remote_matches host w name) as [|q [|r rest]]; simpl in Hfind;
      [done | | done]. injection Hfind as ->. by left. }
  unfold remote_matches in Hp.
  apply list_elem_of_In, filter_In in Hp as [Hp Hname].
  split; [by apply list_elem_of_In | by apply bool_decide_eq_true in Hname].
Qed.

(** X4: [_load_remote_case] downloads exactly when the cache does not
    hold the case: a cached case is loaded with the world untouched, an
    uncached one after a single download, and a failed download ends
    the call.  The bundle it returns is named by the last segment of
    the registry path and is marked remote. *)
Theorem load_remote_case_downloads_when_uncached name_or_path w :
  let run := _load_remote_case host name_or_path w in
  (is_case_cached host w name_or_path = Ok true →
     emitted run = [] ∧ final run = w)
  ∧ (is_case_cached host w name_or_path = Ok false →
     emitted run = [EDownload name_or_path]
     ∧ final run = (_download_remote host name_or_path w).2
     ∧ ∀ e, (_download_remote host name_or_path w).1 = Raise e →
            res run = Raise e)
  ∧ (∀ e, is_case_cached host w name_or_path = Raise e →
          run = mkOutcome (Raise e) w [])
  ∧ (∀ b, res run = Ok b →
          cb_name b = remote_case_name name_or_path ∧ cb_is_remote b = true).
Proof.
  intros run. subst run.
  split; [| split; [| split; [| intros b; apply load_remote_case_ok]]].
  all: unfold _load_remote_case, mbind, M_bind, bind, reads, gets, acts, mret,
         M_ret, ret; simpl.
  - intros ->. simpl.
    destruct (get_cached_case_dir host w name_or_path) as [d|e]; simpl; [| done].
    by destruct (read_manifest host w d).
  - intros ->. simpl.
    destruct (_download_remote host name_or_path w) as [[[]|e] w']; simpl.
    + split; [| split; [| done]].
      * f_equal.
        destruct (get_cached_case_dir host w' name_or_path) as [d|e]; simpl;
          [| done].
        by destruct (read_manifest host w' d).
      * destruct (get_cached_case_dir host w' name_or_path) as [d|e]; simpl;
          [| done].
        by destruct (read_manifest host w' d).
    + split; [done |]. split; [done |]. by intros ? [= <-].
  - by intros e ->.
Qed.

Lemma load_by_name_slash_raises name w :
  PyStr.contains "/" name = true →
  ∃ e, load_by_name host name w = mkOutcome (Raise e) w [].
Proof.
  intros Hslash. unfold load_by_name.
  assert (∃ e, collect_matches host w name = Raise e) as [e He].
  { unfold collect_matches, _find_case_in_collections, mbind, result_bind.
    unfold _validate_path_component. case_bool_decide; [by eexists |].
    rewrite Hslash, orb_true_r. simpl. by eexists. }
  exists e. by erewrite bind_reads_raise.
Qed.

Lemma load_by_name_ok name w b :
  res (load_by_name host name w) = Ok b →
  cb_name b = name
  ∧ (cb_is_remote b = true ↔ _find_case_in_collections host w name = Ok []).
Proof.
  unfold load_by_name.
  destruct (collect_matches host w name) as [matches|e] eqn:Hmatches;
    [| by erewrite bind_reads_raise].
  erewrite bind_reads_ok by exact Hmatches.
  case_bool_decide as Hlen; [done |].
  unfold collect_matches, mbind, result_bind in Hmatches.
  destruct (_find_case_in_collections host w name) as [case_dirs|e] eqn:Hfind;
    [| done].
  destruct (_find_remote_case_by_name host w name) as [remote_path|e] eqn:Hremote;
    [| done].
  injection Hmatches as <-.
  destruct case_dirs as [|d [|d' rest]]; simpl in *; [| | lia].
  - destruct remote_path as [p|]; simpl.
    2:{ by unfold mbind, M_bind, bind, gets, raise. }
    case_bool_decide; simpl; [by unfold mbind, M_bind, bind, gets, raise |].
    intros Hres.
    apply load_remote_case_ok in Hres as [Hname Hrem].
    split; [| done]. rewrite Hname.
    by apply remote_lookup_some in Hremote as [_ ?].
  - destruct remote_path as [p|]; simpl.
    + case_bool_decide; simpl in *; [| lia].
      unfold reads; simpl. intros (? & _ & Hrem)%load_bundled_case_ok.
      split; [done |]. rewrite Hrem. by split.
    + unfold reads; simpl. intros (? & _ & Hrem)%load_bundled_case_ok.
      split; [done |]. rewrite Hrem. by split.
Qed.

Lemma load_unfold name_or_path w :
  load host name_or_path w =
    if is_dir host w (PyPath.of_str name_or_path)
    then reads (_load_local_case host (PyPath.of_str name_or_path)) w
    else if PyStr.contains "/" name_or_path
    then (load_by_collection_path host name_or_path ≫= λ found,
            match found with
            | Some case => mret case
            | None => load_by_name host name_or_path
            end) w
    else load_by_name host name_or_path w.
Proof.
  unfold load. rewrite bind_gets.
  destruct (is_dir host w (PyPath.of_str name_or_path)); [done |].
  destruct (PyStr.contains "/" name_or_path); [done |]. by rewrite bind_ret.
Qed.

Lemma load_by_collection_path_ok name w b :
  PyStr.contains "/" name = true →
  res ((load_by_collection_path host name ≫= λ found,
          match found with
          | Some case => mret case
          | None => load_by_name host name
          end) w) = Ok b →
  cb_name b = List.last (PyStr.split "/" name) "".
Proof.
  intros Hslash. unfold load_by_collection_path.
  rewrite !bind_assoc.
  destruct (for_each _validate_path_component (PyStr.split "/" name)) as [[]|e]
    eqn:Hvalid; [| by erewrite bind_reads_raise by reflexivity].
  erewrite bind_reads_ok by reflexivity. rewrite bind_assoc.
  set (bundled_dir := PyPath.joinpath (CASES_DIR host) (PyStr.split "/" name)).
  destruct (if is_dir host w bundled_dir
            then resolves_inside host w bundled_dir (CASES_DIR host)
            else Ok false) as [[]|e] eqn:Hinside;
    [| | by erewrite bind_reads_raise].
  - erewrite bind_reads_ok by exact Hinside. simpl. rewrite bind_assoc.
    rewrite (bind_ext _ _ mret) by (intros; by rewrite bind_ret).
    rewrite bind_ret_r. unfold reads; simpl.
    by intros (? & _)%load_bundled_case_ok.
  - erewrite bind_reads_ok by exact Hinside. simpl.
    rewrite bind_assoc, bind_gets.
    destruct (is_remote_case host w name).
    + rewrite bind_assoc.
      rewrite (bind_ext _ _ mret) by (intros; by rewrite bind_ret).
      rewrite bind_ret_r. intros Hres.
      apply load_remote_case_ok in Hres as [-> _].
      unfold remote_case_name. by rewrite Hslash.
    + rewrite bind_ret.
      destruct (load_by_name_slash_raises name w Hslash) as [e ->]. done.
Qed.

(** X5: the bundle that [load] returns is named after the request: by
    the name of the directory for a local path, and otherwise by the
    last segment of the name, which for a bare name is the name itself.
    For a bare name the bundle is marked remote exactly when the bundled
    collections hold no such case. *)
Theorem load_names_bundle_as_requested name_or_path w b :
  res (load host name_or_path w) = Ok b →
  (cb_name b =
     if is_dir host w (PyPath.of_str name_or_path)
     then PyPath.name (PyPath.of_str name_or_path)
     else List.last (PyStr.split "/" name_or_path) "")
  ∧ (PyStr.contains "/" name_or_path = false →
     is_dir host w (PyPath.of_str name_or_path) = false →
     cb_name b = name_or_path
     ∧ (cb_is_remote b = true
        ↔ _find_case_in_collections host w name_or_path = Ok [])).
Proof.
  rewrite load_unfold.
  destruct (is_dir host w (PyPath.of_str name_or_path)) eqn:Hdir.
  - unfold reads; simpl. intros (? & _)%load_local_case_ok. by split.
  - destruct (PyStr.contains "/" name_or_path) eqn:Hs.
    + intros Hres%load_by_collection_path_ok; [| done]. by split.
    + rewrite split_no_separator by done. simpl.
      intros [? ?]%load_by_name_ok. by split.
Qed.

End LoadResultFacts.

Lemma load_names_bundle_as_requested_witness :
  ∃ b, res (load Toy.host "ACTIVSg70k" Toy.shipped) = Ok b
       ∧ cb_name b = "ACTIVSg70k".
Proof.
  eexists. split; [vm_compute; reflexivity |].
  exact (proj1 (proj2 (load_names_bundle_as_requested Toy.host "ACTIVSg70k"
                         Toy.shipped _ eq_refl) eq_refl eq_refl)).
Defined.

Section LoadEffectFacts.

Context {FS : Type} (host : Host FS).

Lemma load_remote_case_effects p w :
  untouched (_load_remote_case host p w) w
  ∨ downloaded_once host (_load_remote_case host p w) w.
Proof.
  unfold untouched, downloaded_once, _load_remote_case.
  unfold mbind, M_bind, bind, reads, gets, acts, mret, M_ret, ret; simpl.
  destruct (is_case_cached host w p) as [[]|e] eqn:Hcached; simpl.
  - left.
    destruct (get_cached_case_dir host w p) as [d|e]; simpl; [| done].
    by destruct (read_manifest host w d).
  - right. exists p. split; [done |].
    destruct (_download_remote host p w) as [[[]|e] w']; simpl; [| done].
    destruct (get_cached_case_dir host w' p) as [d|e]; simpl; [| done].
    by destruct (read_manifest host w' d).
  - by left.
Qed.

Lemma load_by_name_effects name w :
  untouched (load_by_name host name w) w
  ∨ downloaded_once host (load_by_name host name w) w.
Proof.
  unfold load_by_name.
  destruct (collect_matches host w name) as [matches|e] eqn:Hmatches;
    [| left; by erewrite bind_reads_raise].
  erewrite bind_reads_ok by exact Hmatches.
  case_bool_decide; [by left |].
  destruct matches as [|[coll d | coll p] [|m rest]];
    try (left; by rewrite bind_gets).
  - left. done.
  - apply load_remote_case_effects.
Qed.

(** X6: [load] changes the world by at most one download, of a case the
    cache does not hold yet; in every other run, successful or not, it
    leaves the world as it found it. *)
Theorem load_downloads_at_most_once name_or_path w :
  untouched (load host name_or_path w) w
  ∨ downloaded_once host (load host name_or_path w) w.
Proof.
  rewrite load_unfold.
  destruct (is_dir host w (PyPath.of_str name_or_path)); [by left |].
  destruct (PyStr.contains "/" name_or_path) eqn:Hslash;
    [| apply load_by_name_effects].
  unfold load_by_collection_path. rewrite !bind_assoc.
  destruct (for_each _validate_path_component (PyStr.split "/" name_or_path))
    as [[]|e]; [| left; by erewrite bind_reads_raise by reflexivity].
  erewrite bind_reads_ok by reflexivity. rewrite bind_assoc.
  set (bundled_dir :=
         PyPath.joinpath (CASES_DIR host) (PyStr.split "/" name_or_path)).
  destruct (if is_dir host w bundled_dir
            then resolves_inside host w bundled_dir (CASES_DIR host)
            else Ok false) as [[]|e] eqn:Hinside;
    [| | left; by erewrite bind_reads_raise].
  - erewrite bind_reads_ok by exact Hinside. simpl. rewrite bind_assoc.
    rewrite (bind_ext _ _ mret) by (intros; by rewrite bind_ret).
    rewrite bind_ret_r. by left.
  - erewrite bind_reads_ok by exact Hinside. simpl.
    rewrite bind_assoc, bind_gets.
    destruct (is_remote_case host w name_or_path).
    + rewrite bind_assoc.
      rewrite (bind_ext _ _ mret) by (intros; by rewrite bind_ret).
      rewrite bind_ret_r. apply load_remote_case_effects.
    + rewrite bind_ret. apply load_by_name_effects.
Qed.


End LoadEffectFacts.


Example load_remote_downloads_once :
  emitted (load Toy.host "ACTIVSg70k" Toy.shipped)
  = [EDownload "synthetic/ACTIVSg70k"]
  ∧ emitted (load Toy.host "ACTIVSg70k"
               (final (load Toy.host "ACTIVSg70k" Toy.shipped))) = [].
Proof. by vm_compute. Qed.

(** ** More on the file locator *)

Section FileLocatorMore.

Context (mf : ManifestOps).

(** X8: a path returned by [file] always comes from a manifest entry:
    the exact match of the request or, only when neither a version nor
    a variant was asked for, the default of the format.  It is the
    bundle directory joined with the path of that entry, so that a
    relative entry lies under the bundle directory, while an absolute
    entry path replaces the bundle directory. *)
Theorem file_returns_manifest_entry case format format_version variant required p :
  file mf case format format_version variant required = Ok (Some p) →
  ∃ e,
    (file_entry mf (cb_manifest case) (_normalize_format format)
       format_version variant = Some e
     ∨ (file_entry mf (cb_manifest case) (_normalize_format format)
          format_version variant = None
        ∧ format_version = None ∧ variant = None
        ∧ get_default_file mf (cb_manifest case) (_normalize_format format)
          = Some e))
    ∧ p = PyPath.str (PyPath.of_str (cb_dir case) // fe_path e)
    ∧ (PyPath.anchor_of (fe_path e) = "" →
       PyPath.of_str (cb_dir case) // fe_path e
       = mkPath (anchor (PyPath.of_str (cb_dir case)))
           (parts (PyPath.of_str (cb_dir case))
            ++ parts (PyPath.of_str (fe_path e))))
    ∧ (PyPath.anchor_of (fe_path e) ≠ "" →
       PyPath.of_str (cb_dir case) // fe_path e = PyPath.of_str (fe_path e)).
Proof.
  unfold file.
  destruct (file_entry mf (cb_manifest case) (_normalize_format format)
              format_version variant) as [e|] eqn:Hentry.
  - intros [= <-]. exists e. split; [by left |]. split; [done |].
    unfold PyPath.div; simpl. split; intros Ha.
    + by rewrite bool_decide_eq_true_2.
    + by rewrite bool_decide_eq_false_2.
  - destruct variant as [v|], format_version as [fv|]; simpl;
      try (destruct required; done).
    destruct (get_default_file mf (cb_manifest case) (_normalize_format format))
      as [e|] eqn:Hdefault; [| destruct required; done].
    intros [= <-]. exists e. split; [by right |]. split; [done |].
    unfold PyPath.div; simpl. split; intros Ha.
    + by rewrite bool_decide_eq_true_2.
    + by rewrite bool_decide_eq_false_2.
Qed.

(** X9: [CaseBundle.dyr] never raises: it returns [None] exactly when
    the manifest has neither a matching nor a default DYR entry, whereas
    [CaseBundle.raw] raises exactly when it has no RAW entry of either
    kind, and [get_dyr] never falls back to the default entry. *)
Theorem bundle_accessors_missing_file (self : CaseBundle) :
  raises (dyr mf self) = false
  ∧ (dyr mf self = Ok None ↔ unresolved mf self "psse_dyr" None None)
  ∧ (raises (raw mf self) = true ↔ unresolved mf self "psse_raw" None None)
  ∧ (∀ variant,
       raises (get_dyr mf self variant) = true
       ↔ file_entry mf (cb_manifest self) "psse_dyr" None (Some variant) = None).
Proof.
  unfold dyr, raw, get_dyr, unresolved, file.
  change (_normalize_format "psse_dyr") with "psse_dyr".
  change (_normalize_format "psse_raw") with "psse_raw".
  split; [| split; [| split]].
  - destruct (file_entry mf _ "psse_dyr" None None); simpl; [done |].
    by destruct (get_default_file mf _ "psse_dyr").
  - destruct (file_entry mf _ "psse_dyr" None None); simpl.
    + split; [done | by intros [? _]].
    + destruct (get_default_file mf _ "psse_dyr"); simpl.
      * split; [done |]. intros [_ Hd]. by specialize (Hd eq_refl eq_refl).
      * by split.
  - destruct (file_entry mf _ "psse_raw" None None); simpl.
    + split; [done | by intros [? _]].
    + destruct (get_default_file mf _ "psse_raw"); simpl.
      * split; [done |]. intros [_ Hd]. by specialize (Hd eq_refl eq_refl).
      * by split.
  - intros variant.
    destruct (file_entry mf _ "psse_dyr" None (Some variant)); simpl; by split.
Qed.

(** X10: format aliases are resolved once and for all: normalising is
    idempotent, and [variants] answers for an alias what it answers for
    the canonical format. *)
Theorem variants_alias_same_list (case : CaseBundle) (format : string) :
  _normalize_format (_normalize_format format) = _normalize_format format
  ∧ variants mf case format = variants mf case (_normalize_format format)
  ∧ variants mf case "dyr" = variants mf case "psse_dyr"
  ∧ variants mf case "raw" = variants mf case "psse_raw".
Proof.
  assert (Hidem : _normalize_format (_normalize_format format)
                  = _normalize_format format).
  { unfold _normalize_format. repeat case_bool_decide; done. }
  split; [done |]. unfold variants. by rewrite Hidem.
Qed.

End FileLocatorMore.

Lemma file_returns_manifest_entry_witness :
  ∃ e,
    SpecManifest.get_default_file ieee14_manifest "psse_dyr" = Some e
    ∧ "/pkg/powerfulcases/cases/ieee-transmission/ieee14/ieee14.dyr"
      = PyPath.str (PyPath.of_str (cb_dir ieee14_bundle) // fe_path e).
Proof.
  destruct (file_returns_manifest_entry SpecManifest.ops ieee14_bundle "dyr"
              None None true
              "/pkg/powerfulcases/cases/ieee-transmission/ieee14/ieee14.dyr"
              eq_refl) as (e & Hfrom & Hpath & _).
  exists e. split; [| exact Hpath].
  destruct Hfrom as [Hexact | (_ & _ & _ & Hdefault)]; [| exact Hdefault].
  vm_compute in Hexact. injection Hexact as <-. reflexivity.
Defined.

(** ** More on the listing of cases *)

Section ListingMore.

Context {FS : Type} (host : Host FS).

Lemma elem_of_cases w collection tag name :
  name ∈ cases host w collection tag ↔
  ∃ entry, merged_by_source host w name = Some entry
           ∧ passes_filters collection tag entry = true.
Proof.
  unfold cases, sorted.
  rewrite merge_sort_Permutation, cases_filtered_names, list_elem_of_fmap.
  setoid_rewrite <- cases_table_lookup. split.
  - intros ([n e] & -> & Hin). apply list_elem_of_In, filter_In in Hin as [Hin Hp].
    apply list_elem_of_In, elem_of_map_to_list in Hin. by exists e.
  - intros (e & He & Hp). exists (name, e). split; [done |].
    apply list_elem_of_In, filter_In. split; [| done].
    by apply list_elem_of_In, elem_of_map_to_list.
Qed.

Lemma first_entry_Some name l entry :
  first_entry name l = Some entry → (name, entry) ∈ l.
Proof.
  unfold first_entry. induction l as [|[n e] l IH]; simpl; [done |].
  case_bool_decide as Hn; simpl in *.
  - intros [= <-]. subst n. by left.
  - intros ?. right. by apply IH.
Qed.

Lemma first_entry_is_Some name l :
  is_Some (first_entry name l) ↔ name ∈ l.*1.
Proof.
  unfold first_entry. induction l as [|[n e] l IH]; simpl.
  - split; [by intros [? ?] | by intros ?%elem_of_nil].
  - rewrite elem_of_cons. case_bool_decide as Hn; simpl in *.
    + split; [by left | by eexists].
    + rewrite IH. split; [by right | by intros [? | ?]].
Qed.

(** The entries of all four sources. *)
Lemma merged_by_source_is_Some w name :
  is_Some (merged_by_source host w name) ↔
  name ∈ (manifest_entries host w ++ directory_entries host w
          ++ remote_entries host w ++ cached_entries host w).*1.
Proof.
  unfold merged_by_source. rewrite first_entry_is_Some.
  rewrite !fmap_app, !elem_of_app.
  assert (Hrev : name ∈ (rev (manifest_entries host w)).*1
                 ↔ name ∈ (manifest_entries host w).*1).
  { rewrite !list_elem_of_fmap. setoid_rewrite list_elem_of_In.
    by setoid_rewrite <- in_rev. }
  by rewrite Hrev.
Qed.

(** X11: the filters of [cases] only narrow the listing and act
    independently: a name is listed under a collection and a tag exactly
    when it is listed under the collection alone and under the tag
    alone, and every filtered listing is part of the unfiltered one. *)
Theorem cases_filters_intersect w collection tag name :
  (name ∈ cases host w collection tag
   ↔ name ∈ cases host w collection None ∧ name ∈ cases host w None tag)
  ∧ (name ∈ cases host w collection tag → name ∈ cases host w None None).
Proof.
  rewrite !elem_of_cases. unfold passes_filters. split.
  - split.
    + intros (e & He & [Hc Ht]%andb_true_iff).
      split; exists e; (split; [done |]);
        [by rewrite Hc | by destruct collection, tag].
    + intros [(e & He & Hc) (e' & He' & Ht)].
      assert (e' = e) as -> by congruence.
      exists e. split; [done |]. rewrite andb_true_r in Hc. simpl in Ht.
      by rewrite Hc, Ht.
  - intros (e & He & _). by exists e.
Qed.

(** X12: without filters [cases] lists exactly the names its four
    sources give: the directories of the manifests found (hidden ones
    apart), the directories under the collection directories, the last
    segments of the registry entries and the cached cases. *)
Theorem cases_unfiltered_lists_every_source w name :
  name ∈ cases host w None None ↔
  name ∈ (manifest_entries host w).*1
  ∨ name ∈ (directory_entries host w).*1
  ∨ (∃ remote_path, remote_path ∈ list_remote_cases host w
                    ∧ remote_case_name remote_path = name)
  ∨ name ∈ list_cached_cases host w.
Proof.
  rewrite elem_of_cases.
  assert (Hany : (∃ entry, merged_by_source host w name = Some entry
                           ∧ passes_filters None None entry = true)
                 ↔ is_Some (merged_by_source host w name)).
  { split; [intros (e & He & _); by exists e | intros [e He]; by exists e]. }
  rewrite Hany, merged_by_source_is_Some, !fmap_app, !elem_of_app.
  assert (Hremote : name ∈ (remote_entries host w).*1
                    ↔ ∃ remote_path, remote_path ∈ list_remote_cases host w
                                     ∧ remote_case_name remote_path = name).
  { unfold remote_entries. rewrite <- list_fmap_compose, list_elem_of_fmap.
    assert (Hsame : ∀ p, (remote_entry p).1 = remote_case_name p).
    { intros p. unfold remote_entry, remote_case_name.
      by destruct (PyStr.contains "/" p). }
    split.
    - intros (p & -> & Hp). exists p. split; [done |]. simpl. by rewrite Hsame.
    - intros (p & Hp & <-). exists p. split; [| done]. simpl. by rewrite Hsame. }
  assert (Hcached : name ∈ (cached_entries host w).*1
                    ↔ name ∈ list_cached_cases host w).
  { unfold cached_entries. rewrite <- list_fmap_compose, list_elem_of_fmap.
    split; [by intros (n & -> & Hn) | intros Hn; by exists name]. }
  rewrite Hremote, Hcached. done.
Qed.

End ListingMore.

Section ListingSources.

Context {FS : Type} (host : Host FS).

Lemma directory_entries_untagged w x :
  x ∈ directory_entries host w → x.2.2 = [] ∧ is_Some x.2.1.
Proof.
  unfold directory_entries.
  destruct (is_dir host w (CASES_DIR host)); [| by intros ?%elem_of_nil].
  intros (coll_dir & Hx & _)%list_elem_of_bind.
  destruct (negb (is_dir host w coll_dir) || _); [by apply elem_of_nil in Hx |].
  apply list_elem_of_bind in Hx as (case_dir & Hx & _).
  destruct (is_dir host w case_dir); [| by apply elem_of_nil in Hx].
  apply list_elem_of_singleton in Hx as ->. by split.
Qed.

Lemma remote_entries_untagged w x :
  x ∈ remote_entries host w → x.2.2 = [].
Proof.
  unfold remote_entries. by intros (p & -> & _)%list_elem_of_fmap.
Qed.

Lemma cached_entries_plain w x :
  x ∈ cached_entries host w → x.2 = (None, []).
Proof.
  unfold cached_entries. by intros (n & -> & _)%list_elem_of_fmap.
Qed.

(** X13: a filter is only passed on the word of a source that can give
    it: a case listed under a collection has a bundled or registry entry
    of that collection, never only a cached copy, and a case listed
    under a tag has a manifest that carries the tag. *)
Theorem cases_filter_needs_declaring_source w name :
  (∀ c tag, name ∈ cases host w (Some c) tag →
     ∃ x, x ∈ manifest_entries host w ++ directory_entries host w
              ++ remote_entries host w
          ∧ x.1 = name ∧ x.2.1 = Some c)
  ∧ (∀ collection t, name ∈ cases host w collection (Some t) →
     ∃ x, x ∈ manifest_entries host w ∧ x.1 = name ∧ t ∈ x.2.2).
Proof.
  split.
  - intros c tag (e & He & Hpass)%elem_of_cases.
    apply andb_true_iff in Hpass as [Hc%bool_decide_eq_true _].
    apply first_entry_Some in He. exists (name, e).
    split; [| by split].
    rewrite !elem_of_app in He. rewrite !elem_of_app.
    destruct He as [He | [He | [He | He]]]; [| by right; left | by right; right |].
    + left. by apply list_elem_of_In, in_rev, list_elem_of_In.
    + apply cached_entries_plain in He. simpl in He. by subst e.
  - intros collection t (e & He & Hpass)%elem_of_cases.
    apply andb_true_iff in Hpass as [_ Ht%bool_decide_eq_true].
    apply first_entry_Some in He. exists (name, e).
    split; [| by split].
    rewrite !elem_of_app in He.
    destruct He as [He | [He | [He | He]]].
    + by apply list_elem_of_In, in_rev, list_elem_of_In.
    + apply directory_entries_untagged in He as [He _]. simpl in He.
      rewrite He in Ht. by apply elem_of_nil in Ht.
    + apply remote_entries_untagged in He. simpl in He.
      rewrite He in Ht. by apply elem_of_nil in Ht.
    + apply cached_entries_plain in He. simpl in He. subst e.
      by apply elem_of_nil in Ht.
Qed.

(** ** The listing of collections *)

Lemma collection_like_spec w entry :
  collection_like host w entry = true ↔ is_collection_dir host w entry.
Proof.
  unfold collection_like, is_collection_dir.
  rewrite !andb_true_iff, orb_true_iff, negb_true_iff, existsb_exists.
  setoid_rewrite andb_true_iff. setoid_rewrite negb_true_iff.
  setoid_rewrite <- list_elem_of_In. tauto.
Qed.

Lemma collections_step_spec w (result : gset string) entry :
  (if is_dir host w entry && negb (PyStr.startswith (PyPath.name entry) ".")
   then
     if is_file host w (entry // "collection.toml")
     then {[PyPath.name entry]} ∪ result
     else if existsb (λ e, negb (PyStr.startswith (PyPath.name e) ".")
                           && is_dir host w e)
               (iterdir host w entry)
     then {[PyPath.name entry]} ∪ result
     else result
   else result)
  = if collection_like host w entry then {[PyPath.name entry]} ∪ result
    else result.
Proof.
  unfold collection_like.
  destruct (is_dir host w entry && _); simpl; [| done].
  destruct (is_file host w (entry // "collection.toml")); simpl; [done |].
  by destruct (existsb _ _).
Qed.

Lemma collections_fold_spec w (l : list Path) (acc : gset string) name :
  name ∈ foldl (λ (result : gset string) entry,
                  if collection_like host w entry
                  then {[PyPath.name entry]} ∪ result else result) acc l
  ↔ name ∈ acc
    ∨ ∃ entry, entry ∈ l ∧ PyPath.name entry = name
               ∧ collection_like host w entry = true.
Proof.
  revert acc; induction l as [|x l IH]; intros acc; simpl.
  - split; [by left | intros [? | (? & ?%elem_of_nil & _)]; done].
  - rewrite IH. split.
    + intros [Hacc | (entry & Hin & Hname & Hlike)].
      * destruct (collection_like host w x) eqn:Hx; [| by left].
        apply elem_of_union in Hacc as [->%elem_of_singleton | Hacc];
          [| by left].
        right. exists x. split; [by left | done].
      * right. exists entry. split; [by right | done].
    + intros [Hacc | (entry & Hin & Hname & Hlike)].
      * left. destruct (collection_like host w x); [| done].
        apply elem_of_union. by right.
      * apply elem_of_cons in Hin as [-> | Hin].
        -- left. rewrite Hlike. apply elem_of_union. left.
           by apply elem_of_singleton.
        -- right. by exists entry.
Qed.

(** X14: [collections] returns a sorted list without duplicates that
    holds exactly the names of the visible directories of the bundled
    root that have a [collection.toml] or at least one visible
    sub-directory; without a bundled root it is empty. *)
Theorem collections_sorted_and_exact w :
  Sorted String.le (collections host w)
  ∧ NoDup (collections host w)
  ∧ (∀ name, name ∈ collections host w ↔
       is_dir host w (CASES_DIR host) = true
       ∧ ∃ entry, entry ∈ iterdir host w (CASES_DIR host)
                  ∧ PyPath.name entry = name
                  ∧ is_collection_dir host w entry).
Proof.
  unfold collections, sorted.
  split; [apply Sorted_merge_sort; apply _ |].
  split; [rewrite merge_sort_Permutation; apply NoDup_elements |].
  intros name. rewrite merge_sort_Permutation, elem_of_elements.
  destruct (is_dir host w (CASES_DIR host)).
  - rewrite (foldl_ext_in _
      (λ (result : gset string) entry,
         if collection_like host w entry
         then {[PyPath.name entry]} ∪ result else result))
      by (intros; apply collections_step_spec).
    rewrite collections_fold_spec. split.
    + intros [?%elem_of_empty | (entry & Hin & Hname & Hlike)]; [done |].
      split; [done |]. exists entry. split; [done |]. split; [done |].
      by apply collection_like_spec.
    + intros [_ (entry & Hin & Hname & Hlike)]. right. exists entry.
      split; [done |]. split; [done |]. by apply collection_like_spec.
  - split; [by intros ?%elem_of_empty | by intros [? _]].
Qed.

End ListingSources.

Example collections_twice : collections Toy.host Toy.twice = ["a"; "b"].
Proof. by vm_compute. Qed.

(** ** Measuring and exporting *)

Section ExportMore.

Context {FS : Type} (host : Host FS).

Lemma measure_loop_spec w (l : list Path) (t0 : Z) (fl0 : list Path) total file_list :
  foldlM (λ '(total_size, file_list) filepath,
            size ← stat_size host w filepath;
            Ok ((total_size + size)%Z, file_list ++ [filepath]))
         (t0, fl0) l = Ok (total, file_list)
  ↔ file_list = fl0 ++ l
    ∧ ∃ sizes, Forall2 (λ f z, stat_size host w f = Ok z) l sizes
               ∧ total = (t0 + total_of sizes)%Z.
Proof.
  revert t0 fl0; induction l as [|f l IH]; intros t0 fl0; simpl.
  - split.
    + intros [= <- <-]. rewrite app_nil_r. split; [done |].
      exists []. split; [constructor | simpl; lia].
    + intros [-> (sizes & Hsizes & ->)]. apply Forall2_nil_inv_l in Hsizes as ->.
      rewrite app_nil_r. simpl. do 2 f_equal. lia.
  - unfold mbind at 1, result_bind at 1.
    destruct (stat_size host w f) as [z|e] eqn:Hstat; simpl.
    + rewrite IH, <- app_assoc. simpl. split.
      * intros [-> (sizes & Hsizes & ->)]. split; [done |].
        exists (z :: sizes). split; [by constructor | simpl; lia].
      * intros [-> (sizes & Hsizes & ->)]. split; [done |].
        apply Forall2_cons_inv_l in Hsizes as (z' & sizes' & Hz & Hsizes & ->).
        assert (z' = z) as -> by congruence.
        exists sizes'. split; [done | simpl; lia].
    + split; [done |].
      intros [_ (sizes & Hsizes & _)].
      apply Forall2_cons_inv_l in Hsizes as (z' & sizes' & Hz & _).
      congruence.
Qed.

Lemma bind_run_raise {A B} (m : M FS A) (k : A → M FS B) w e :
  res (m w) = Raise e →
  (m ≫= k) w = mkOutcome (Raise e) (final (m w)) (emitted (m w)).
Proof. intros Hm. unfold mbind, M_bind, bind. by rewrite Hm. Qed.

(** X15: the measuring loop of [export_case] succeeds exactly when every
    file met by the walk can be sized; it then lists those files in the
    order of the walk and totals their sizes, an empty directory giving
    no file and size zero. *)
Theorem measure_totals_walked_files w case_path total file_list :
  (measure host w case_path = Ok (total, file_list)
   ↔ file_list = walked_files host w case_path
     ∧ ∃ sizes, Forall2 (λ f z, stat_size host w f = Ok z)
                  (walked_files host w case_path) sizes
                ∧ total = total_of sizes)
  ∧ (walked_files host w case_path = [] →
     measure host w case_path = Ok (0%Z, [])).
Proof.
  unfold measure. split.
  - rewrite measure_loop_spec. simpl. done.
  - by intros ->.
Qed.

Lemma bind_run_with {A B} (m : M FS A) (k : A → M FS B) w a :
  res (m w) = Ok a →
  (m ≫= k) w = with_effects (emitted (m w)) (k a (final (m w))).
Proof. intros Hm. unfold mbind, M_bind, bind, with_effects. by rewrite Hm. Qed.

Lemma bind_emit_with {B} ev (k : unit → M FS B) (w : FS) :
  (emit ev ≫= k) w = with_effects [ev] (k () w).
Proof. done. Qed.

Lemma bind_acts_ok {B} ev f (k : unit → M FS B) (w w' : FS) :
  f w = (Ok (), w') → (acts ev f ≫= k) w = with_effects [ev] (k () w').
Proof.
  intros Hf. unfold mbind, M_bind, bind, acts, with_effects; simpl.
  by rewrite Hf.
Qed.

Lemma bind_acts_raise {B} ev f (k : unit → M FS B) (w w' : FS) e :
  f w = (Raise e, w') → (acts ev f ≫= k) w = mkOutcome (Raise e) w' [ev].
Proof.
  intros Hf. unfold mbind, M_bind, bind, acts; simpl. by rewrite Hf.
Qed.

(** The run of [export_case] once the case is loaded and the
    destination is not refused. *)
Lemma export_copy_phase (case : CaseBundle) (dest_dir : Path)
    (overwrite : bool) (w1 : FS) total_size file_list :
  measure host w1 (PyPath.of_str (cb_dir case)) = Ok (total_size, file_list) →
  ∃ progress reports,
    Forall is_print (progress ++ reports)
    ∧ ((reads (λ w, measure host w (PyPath.of_str (cb_dir case)))
        ≫= λ '(total_size, file_list),
           (if bool_decide (PROGRESS_THRESHOLD_BYTES < total_size)%Z
            then emit (EPrint [Text "Exporting "; Text (cb_name case); Text " (";
                               MegaBytes total_size; Text " MB)..."])
            else mret ());;
           present ← gets (λ w, path_exists host w dest_dir);
           (if present && overwrite
            then acts (ERmtree dest_dir) (rmtree host dest_dir)
            else mret ());;
           acts (ECopytree (PyPath.of_str (cb_dir case)) dest_dir)
             (copytree host (PyPath.of_str (cb_dir case)) dest_dir);;
           emit (EPrint [Text "Exported "; Text (cb_name case); Text " → ";
                         Text (PyPath.str dest_dir)]);;
           emit (EPrint [Text "Copied "; Count (List.length file_list);
                         Text " files ("; MegaBytes total_size; Text " MB)"]);;
           mret (PyPath.str dest_dir)) w1
       = if path_exists host w1 dest_dir && overwrite then
           match rmtree host dest_dir w1 with
           | (Raise e, w2) =>
               mkOutcome (Raise e) w2 (progress ++ [ERmtree dest_dir])
           | (Ok _, w2) =>
               match copytree host (PyPath.of_str (cb_dir case)) dest_dir w2 with
               | (Raise e, w3) =>
                   mkOutcome (Raise e) w3
                     (progress ++ [ERmtree dest_dir;
                                   ECopytree (PyPath.of_str (cb_dir case)) dest_dir])
               | (Ok _, w3) =>
                   mkOutcome (Ok (PyPath.str dest_dir)) w3
                     (progress ++ [ERmtree dest_dir;
                                   ECopytree (PyPath.of_str (cb_dir case)) dest_dir]
                      ++ reports)
               end
           end
         else
           match copytree host (PyPath.of_str (cb_dir case)) dest_dir w1 with
           | (Raise e, w3) =>
               mkOutcome (Raise e) w3
                 (progress ++ [ECopytree (PyPath.of_str (cb_dir case)) dest_dir])
           | (Ok _, w3) =>
               mkOutcome (Ok (PyPath.str dest_dir)) w3
                 (progress ++ [ECopytree (PyPath.of_str (cb_dir case)) dest_dir]
                  ++ reports)
           end).
Proof.
  intros Hmeasure.
  set (case_path := PyPath.of_str (cb_dir case)) in *.
  exists (if bool_decide (PROGRESS_THRESHOLD_BYTES < total_size)%Z
          then [EPrint [Text "Exporting "; Text (cb_name case); Text " (";
                        MegaBytes total_size; Text " MB)..."]]
          else []),
         [EPrint [Text "Exported "; Text (cb_name case); Text " → ";
                  Text (PyPath.str dest_dir)];
          EPrint [Text "Copied "; Count (List.length file_list);
                  Text " files ("; MegaBytes total_size; Text " MB)"]].
  split.
  { apply Forall_app. split; [case_bool_decide |]; repeat constructor;
      by eexists. }
  erewrite bind_reads_ok by exact Hmeasure. cbv beta iota.
  assert (Htail : ∀ w2,
    (acts (ECopytree case_path dest_dir) (copytree host case_path dest_dir);;
     emit (EPrint [Text "Exported "; Text (cb_name case); Text " → ";
                   Text (PyPath.str dest_dir)]);;
     emit (EPrint [Text "Copied "; Count (List.length file_list);
                   Text " files ("; MegaBytes total_size; Text " MB)"]);;
     mret (PyPath.str dest_dir)) w2
    = match copytree host case_path dest_dir w2 with
      | (Raise e, w3) => mkOutcome (Raise e) w3 [ECopytree case_path dest_dir]
      | (Ok _, w3) =>
          mkOutcome (Ok (PyPath.str dest_dir)) w3
            [ECopytree case_path dest_dir;
             EPrint [Text "Exported "; Text (cb_name case); Text " → ";
                     Text (PyPath.str dest_dir)];
             EPrint [Text "Copied "; Count (List.length file_list);
                     Text " files ("; MegaBytes total_size; Text " MB)"]]
      end).
  { intros w2.
    destruct (copytree host case_path dest_dir w2) as [[[]|e] w3] eqn:Hcopy.
    - erewrite bind_acts_ok by exact Hcopy. by rewrite !bind_emit_with.
    - by erewrite bind_acts_raise by exact Hcopy. }
  assert (Hremove : ∀ w1',
    (present ← gets (λ w, path_exists host w dest_dir);
     (if present && overwrite
      then acts (ERmtree dest_dir) (rmtree host dest_dir)
      else mret ());;
     acts (ECopytree case_path dest_dir) (copytree host case_path dest_dir);;
     emit (EPrint [Text "Exported "; Text (cb_name case); Text " → ";
                   Text (PyPath.str dest_dir)]);;
     emit (EPrint [Text "Copied "; Count (List.length file_list);
                   Text " files ("; MegaBytes total_size; Text " MB)"]);;
     mret (PyPath.str dest_dir)) w1'
    = if path_exists host w1' dest_dir && overwrite then
        match rmtree host dest_dir w1' with
        | (Raise e, w2) => mkOutcome (Raise e) w2 [ERmtree dest_dir]
        | (Ok _, w2) =>
            with_effects [ERmtree dest_dir]
              (match copytree host case_path dest_dir w2 with
               | (Raise e, w3) =>
                   mkOutcome (Raise e) w3 [ECopytree case_path dest_dir]
               | (Ok _, w3) =>
                   mkOutcome (Ok (PyPath.str dest_dir)) w3
                     [ECopytree case_path dest_dir;
                      EPrint [Text "Exported "; Text (cb_name case); Text " → ";
                              Text (PyPath.str dest_dir)];
                      EPrint [Text "Copied "; Count (List.length file_list);
                              Text " files ("; MegaBytes total_size;
                              Text " MB)"]]
               end)
        end
      else
        match copytree host case_path dest_dir w1' with
        | (Raise e, w3) => mkOutcome (Raise e) w3 [ECopytree case_path dest_dir]
        | (Ok _, w3) =>
            mkOutcome (Ok (PyPath.str dest_dir)) w3
              [ECopytree case_path dest_dir;
               EPrint [Text "Exported "; Text (cb_name case); Text " → ";
                       Text (PyPath.str dest_dir)];
               EPrint [Text "Copied "; Count (List.length file_list);
                       Text " files ("; MegaBytes total_size; Text " MB)"]]
        end).
  { intros w1'. rewrite bind_gets.
    destruct (path_exists host w1' dest_dir && overwrite).
    - destruct (rmtree host dest_dir w1') as [[[]|e] w2] eqn:Hrm.
      + erewrite bind_acts_ok by exact Hrm. by rewrite Htail.
      + by erewrite bind_acts_raise by exact Hrm.
    - by rewrite bind_ret, Htail. }
  case_bool_decide.
  - rewrite bind_emit_with, Hremove.
    destruct (path_exists host w1 dest_dir && overwrite).
    + destruct (rmtree host dest_dir w1) as [[[]|e] w2]; [| done].
      by destruct (copytree host case_path dest_dir w2) as [[[]|e] w3].
    + by destruct (copytree host case_path dest_dir w1) as [[[]|e] w3].
  - rewrite bind_ret, Hremove.
    destruct (path_exists host w1 dest_dir && overwrite).
    + destruct (rmtree host dest_dir w1) as [[[]|e] w2]; [| done].
      by destruct (copytree host case_path dest_dir w2) as [[[]|e] w3].
    + by destruct (copytree host case_path dest_dir w1) as [[[]|e] w3].
Qed.

(** X16: [export_case] removes a directory only when [overwrite] is set
    and the destination exists after the load, and then only the
    destination; and when it returns, it returns the destination path
    after having copied the case directory there. *)
Theorem export_removes_only_on_overwrite case_name dest overwrite w :
  let loaded := load host case_name w in
  let run := export_case host case_name dest overwrite w in
  (∀ p, ERmtree p ∈ emitted run →
     overwrite = true
     ∧ ∃ case, res loaded = Ok case
         ∧ p = export_dest_dir host (final loaded) dest case
         ∧ path_exists host (final loaded) p = true)
  ∧ (∀ s, res run = Ok s →
     ∃ case, res loaded = Ok case
       ∧ s = PyPath.str (export_dest_dir host (final loaded) dest case)
       ∧ ECopytree (PyPath.of_str (cb_dir case))
           (export_dest_dir host (final loaded) dest case) ∈ emitted run).
Proof.
  intros loaded run.
  assert (Hload_ev : ∀ ev, ev ∈ emitted loaded → is_download ev)
    by (intros ev; apply load_only_downloads).
  assert (Hrun : run = export_case host case_name dest overwrite w) by done.
  unfold export_case in Hrun.
  destruct (res loaded) as [case|e] eqn:Hload.
  2:{ rewrite (bind_run_raise _ _ _ _ Hload) in Hrun.
      fold loaded in Hrun. clearbody run loaded. subst run. simpl.
      split; [| done]. intros p Hin. apply Hload_ev in Hin as [n Hn]. done. }
  rewrite (bind_run_with _ _ _ _ Hload) in Hrun.
  fold loaded in Hrun. rewrite !bind_gets in Hrun.
  clearbody run loaded. subst run.
  remember (export_dest_dir host (final loaded) dest case) as dest_dir eqn:Hdest.
  destruct (path_exists host (final loaded) dest_dir) eqn:Hpresent;
    destruct overwrite; cbn [andb negb].
  2:{ unfold with_effects, raise; simpl. split; [| done].
      intros p Hin. rewrite app_nil_r in Hin.
      apply Hload_ev in Hin as [n Hn]. done. }
  all: destruct (measure host (final loaded) (PyPath.of_str (cb_dir case)))
         as [[total_size file_list]|e] eqn:Hmeasure;
       [| erewrite bind_reads_raise by exact Hmeasure;
          unfold with_effects; simpl; split; [| done];
          intros p Hin; rewrite app_nil_r in Hin;
          apply Hload_ev in Hin as [n Hn]; done].
  1: destruct (export_copy_phase case dest_dir true (final loaded) _ _ Hmeasure)
       as (progress & reports & Hprints & ->).
  2: destruct (export_copy_phase case dest_dir true (final loaded) _ _ Hmeasure)
       as (progress & reports & Hprints & ->).
  3: destruct (export_copy_phase case dest_dir false (final loaded) _ _ Hmeasure)
       as (progress & reports & Hprints & ->).
  all: rewrite Hpresent; cbn [andb];
       assert (Hprogress : ∀ ev, ev ∈ progress → is_print ev)
         by (intros ev Hev; apply Forall_app in Hprints as [Hp _];
             by eapply Forall_forall in Hp);
       assert (Hreports : ∀ ev, ev ∈ reports → is_print ev)
         by (intros ev Hev; apply Forall_app in Hprints as [_ Hr];
             by eapply Forall_forall in Hr).
  - destruct (rmtree host dest_dir (final loaded)) as [[[]|e2] w2];
      [destruct (copytree host (PyPath.of_str (cb_dir case)) dest_dir w2)
         as [[[]|e3] w3] |];
      unfold with_effects; simpl; subst dest_dir.
    all: split;
      [ intros p Hin; split; [done |]; exists case; split; [done |];
        rewrite !elem_of_app, ?elem_of_cons in Hin;
        destruct Hin as [Hin | [Hin | Hin]];
        [ apply Hload_ev in Hin as [n Hn]; done
        | apply Hprogress in Hin as [m Hm]; done
        | repeat match type of Hin with
                 | _ ∨ _ => destruct Hin as [Hin | Hin]
                 end;
          first [ injection Hin as ->; by split
                | discriminate Hin
                | apply Hreports in Hin as [m Hm]; done
                | by apply elem_of_nil in Hin ] ]
      | first [done |
          intros s [= <-]; exists case; split; [done |]; split; [done |];
          rewrite !elem_of_app, !elem_of_cons; right; right; right; by left ] ].
  - destruct (copytree host (PyPath.of_str (cb_dir case)) dest_dir (final loaded))
      as [[[]|e3] w3]; unfold with_effects; simpl; subst dest_dir.
    all: split;
      [ intros p Hin;
        rewrite !elem_of_app, ?elem_of_cons in Hin;
        destruct Hin as [Hin | [Hin | Hin]];
        [ apply Hload_ev in Hin as [n Hn]; done
        | apply Hprogress in Hin as [m Hm]; done
        | repeat match type of Hin with
                 | _ ∨ _ => destruct Hin as [Hin | Hin]
                 end;
          first [ discriminate Hin
                | apply Hreports in Hin as [m Hm]; done
                | by apply elem_of_nil in Hin ] ]
      | first [done |
          intros s [= <-]; exists case; split; [done |]; split; [done |];
          rewrite !elem_of_app, !elem_of_cons; right; right; by left ] ].
  - destruct (copytree host (PyPath.of_str (cb_dir case)) dest_dir (final loaded))
      as [[[]|e3] w3]; unfold with_effects; simpl; subst dest_dir.
    all: split;
      [ intros p Hin;
        rewrite !elem_of_app, ?elem_of_cons in Hin;
        destruct Hin as [Hin | [Hin | Hin]];
        [ apply Hload_ev in Hin as [n Hn]; done
        | apply Hprogress in Hin as [m Hm]; done
        | repeat match type of Hin with
                 | _ ∨ _ => destruct Hin as [Hin | Hin]
                 end;
          first [ discriminate Hin
                | apply Hreports in Hin as [m Hm]; done
                | by apply elem_of_nil in Hin ] ]
      | first [done |
          intros s [= <-]; exists case; split; [done |]; split; [done |];
          rewrite !elem_of_app, !elem_of_cons; right; right; by left ] ].
Qed.

End ExportMore.

Example export_fresh_destination :
  let run := export_case Toy.host "ieee14" "out" true Toy.shipped in
  res run = Ok "/home/out/ieee14"
  ∧ emitted run
    = [ECopytree (Toy.under Toy.cases_dir ["ieee-transmission"; "ieee14"])
                 (mkPath "/" ["home"; "out"; "ieee14"]);
       EPrint [Text "Exported "; Text "ieee14"; Text " → "; Text "/home/out/ieee14"];
       EPrint [Text "Copied "; Count 2; Text " files ("; MegaBytes 4120;
               Text " MB)"]].
Proof. by vm_compute. Qed.

(** ** [_is_safe_subpath] as an order *)

Section SafeSubpathOrder.

Context {FS : Type} (host : Host FS).

Lemma is_safe_subpath_true w child parent :
  _is_safe_subpath host w child parent = Ok true
  ↔ resolves_inside host w child parent = Ok true.
Proof.
  unfold _is_safe_subpath.
  destruct (resolves_inside host w child parent) as [b|e]; [done |].
  by destruct (is_ValueError_or_OSError e).
Qed.

Lemma is_relative_to_trans p q r :
  PyPath.is_relative_to p q = true → PyPath.is_relative_to q r = true →
  PyPath.is_relative_to p r = true.
Proof.
  unfold PyPath.is_relative_to.
  rewrite !andb_true_iff, !bool_decide_eq_true, !PyPathFacts.is_prefix_of_spec.
  intros [Ha [k1 Hk1]] [Hb [k2 Hk2]]. split; [congruence |].
  exists (k2 ++ k1). by rewrite Hk1, Hk2, app_assoc.
Qed.

(** X17: the safe-subpath test is reflexive on every path that resolves
    and transitive: what is safely under a directory that is safely
    under a root is safely under the root. *)
Theorem is_safe_subpath_reflexive_transitive w a b c :
  (∀ ra, resolve host w a = Ok ra → _is_safe_subpath host w a a = Ok true)
  ∧ (_is_safe_subpath host w a b = Ok true →
     _is_safe_subpath host w b c = Ok true →
     _is_safe_subpath host w a c = Ok true).
Proof.
  split.
  - intros ra Hra. apply is_safe_subpath_true, resolves_inside_true.
    exists ra, ra. split; [done |]. split; [done |].
    unfold PyPath.is_relative_to. rewrite bool_decide_eq_true_2 by done. simpl.
    apply PyPathFacts.is_prefix_of_spec. exists []. by rewrite app_nil_r.
  - intros (ra & rb & Ha & Hb & Hab)%is_safe_subpath_true%resolves_inside_true
           (rb' & rc & Hb' & Hc & Hbc)%is_safe_subpath_true%resolves_inside_true.
    assert (rb' = rb) as -> by congruence.
    apply is_safe_subpath_true, resolves_inside_true.
    exists ra, rc. split; [done |]. split; [done |].
    by eapply is_relative_to_trans.
Qed.

End SafeSubpathOrder.

(** ** The directory of a bundle *)

Lemma split_append_separator x s :
  PyStr.contains "/" x = false →
  PyStr.split "/" (x +:+ "/" +:+ s) = x :: PyStr.split "/" s.
Proof.
  induction x as [|c x IH]; [done |].
  cbn [PyStr.contains]. intros [Hhead Htail]%orb_false_elim.
  simpl in Hhead.
  change (String c x +:+ "/" +:+ s) with (String c (x +:+ "/" +:+ s)).
  cbn [PyStr.split].
  destruct (decide (c = "/"%char)) as [-> | Hc].
  - rewrite bool_decide_eq_true_2 in Hhead by done. by destruct x.
  - rewrite bool_decide_eq_false_2 by done. by rewrite IH.
Qed.

Lemma split_join_components ps :
  ps ≠ [] →
  Forall (λ c, c ≠ "" ∧ c ≠ "." ∧ PyStr.contains "/" c = false) ps →
  PyStr.split "/" (PyStr.join "/" ps) = ps.
Proof.
  intros Hne Hall. induction Hall as [|c ps [_ [_ Hc]] Hall IH]; [done |].
  destruct ps as [|d ps].
  - by apply split_no_separator.
  - change (PyStr.join "/" (c :: d :: ps))
      with (c +:+ "/" +:+ PyStr.join "/" (d :: ps)).
    rewrite split_append_separator by done. by rewrite IH.
Qed.

Lemma leading_slashes_join ps :
  Forall (λ c, c ≠ "" ∧ c ≠ "." ∧ PyStr.contains "/" c = false) ps →
  PyPath.leading_slashes (PyStr.join "/" ps) = 0.
Proof.
  intros Hall. destruct Hall as [|c ps (Hne & _ & Hc) Hall]; [done |].
  destruct c as [|a c]; [done |].
  assert (a ≠ "/"%char) as Ha.
  { intros ->. cbn [PyStr.contains] in Hc.
    apply orb_false_elim in Hc as [Hc _]. simpl in Hc. by destruct c. }
  unfold PyStr.join. destruct ps; simpl; by rewrite bool_decide_eq_false_2.
Qed.

Lemma filter_kept_components ps :
  Forall (λ c, c ≠ "" ∧ c ≠ "." ∧ PyStr.contains "/" c = false) ps →
  List.filter PyPath.kept_component ps = ps.
Proof.
  induction 1 as [|c ps (Hne & Hdot & _) _ IH]; [done |].
  simpl. unfold PyPath.kept_component at 1.
  by rewrite !bool_decide_eq_false_2, IH by done.
Qed.

Lemma of_str_rooted (s : string) :
  PyPath.leading_slashes (String "/" s) = S (PyPath.leading_slashes s)
  ∧ PyStr.split "/" (String "/" s) = "" :: PyStr.split "/" s.
Proof. by split. Qed.

Lemma of_str_str (p : Path) :
  well_formed_path p → PyPath.of_str (PyPath.str p) = p.
Proof.
  destruct p as [a ps]. intros [Ha Hps]; simpl in Ha, Hps.
  assert (Hkept := filter_kept_components ps Hps).
  assert (Hlead := leading_slashes_join ps Hps).
  assert (Hparts : List.filter PyPath.kept_component
                     (PyStr.split "/" (PyStr.join "/" ps)) = ps).
  { destruct ps as [|c ps]; [done |].
    by rewrite split_join_components. }
  destruct Ha as [-> | [-> | ->]].
  - destruct ps as [|c ps]; [done |].
    change (PyPath.str (mkPath "" (c :: ps))) with (PyStr.join "/" (c :: ps)).
    unfold PyPath.of_str, PyPath.anchor_of. by rewrite Hlead, Hparts.
  - change (PyPath.str (mkPath "/" ps)) with (String "/" (PyStr.join "/" ps)).
    unfold PyPath.of_str, PyPath.anchor_of.
    destruct (of_str_rooted (PyStr.join "/" ps)) as [-> ->].
    rewrite Hlead. f_equal.
    change (List.filter PyPath.kept_component
              ("" :: PyStr.split "/" (PyStr.join "/" ps)))
      with (List.filter PyPath.kept_component
              (PyStr.split "/" (PyStr.join "/" ps))).
    exact Hparts.
  - change (PyPath.str (mkPath "//" ps))
      with (String "/" (String "/" (PyStr.join "/" ps))).
    unfold PyPath.of_str, PyPath.anchor_of.
    destruct (of_str_rooted (String "/" (PyStr.join "/" ps))) as [-> ->].
    destruct (of_str_rooted (PyStr.join "/" ps)) as [-> ->].
    rewrite Hlead. f_equal.
    change (List.filter PyPath.kept_component
              ("" :: "" :: PyStr.split "/" (PyStr.join "/" ps)))
      with (List.filter PyPath.kept_component
              (PyStr.split "/" (PyStr.join "/" ps))).
    exact Hparts.
Qed.

(** X18: a bundle keeps its directory as a string, and reading that
    string back as a path gives the directory again when the directory
    is a path as [pathlib] builds it; so, unless the manifest declares a
    collection, the collection of the bundle is the name of the parent
    of the directory it was built from, and [None] under [cases]. *)
Theorem bundle_dir_round_trip name directory manifest is_remote :
  well_formed_path directory →
  let bundle := mkCaseBundle name directory manifest is_remote in
  PyPath.of_str (cb_dir bundle) = directory
  ∧ (no_collection_field manifest →
     collection bundle =
       if bool_decide (PyPath.name (PyPath.parent directory) = "cases")
       then None
       else Some (PyPath.name (PyPath.parent directory))).
Proof.
  intros Hwf bundle. unfold bundle, mkCaseBundle; simpl.
  split; [by apply of_str_str |].
  intros Hno. unfold collection, declared_collection; simpl.
  rewrite of_str_str by done.
  destruct Hno as [-> | [-> | ->]]; simpl; repeat case_bool_decide; done.
Qed.

Lemma bundle_dir_round_trip_witness :
  PyPath.of_str (cb_dir ieee14_bundle)
  = mkPath "/" ["pkg"; "powerfulcases"; "cases"; "ieee-transmission"; "ieee14"].
Proof.
  refine (proj1 (bundle_dir_round_trip "ieee14"
                   (mkPath "/" ["pkg"; "powerfulcases"; "cases";
                                "ieee-transmission"; "ieee14"])
                   ieee14_manifest false _)).
  split; [by right; left |]. by repeat constructor.
Defined.

(** ** Export onto an existing destination *)

Section ExportOntoExisting.

Context {FS : Type} (host : Host FS).

(** C6: when the destination directory exists after the case is loaded,
    [export_case] without [overwrite] raises [FileExistsError] having
    done nothing beyond the load: no removal, no copy, the world as the
    load left it.  With [overwrite], once the files of the case are
    measured, [rmtree] is run on the destination, in the world the load
    left and before anything is copied: if the removal fails the call
    ends there and nothing is copied, and if it succeeds [copytree] runs
    next, on the world the removal left.  Only messages are printed
    around these two calls. *)
Theorem export_case_onto_existing_destination case_name dest overwrite w case :
  res (load host case_name w) = Ok case →
  path_exists host (final (load host case_name w))
    (export_dest_dir host (final (load host case_name w)) dest case) = true →
  let loaded := load host case_name w in
  let dest_dir := export_dest_dir host (final loaded) dest case in
  let case_path := PyPath.of_str (cb_dir case) in
  let run := export_case host case_name dest overwrite w in
  (overwrite = false →
     ∃ m, run = mkOutcome (Raise (FileExistsError m)) (final loaded) (emitted loaded))
  ∧ (overwrite = true →
     (∀ e, measure host (final loaded) case_path = Raise e →
           run = mkOutcome (Raise e) (final loaded) (emitted loaded))
     ∧ (∀ total_size file_list,
          measure host (final loaded) case_path = Ok (total_size, file_list) →
          ∃ progress reports,
            Forall is_print (progress ++ reports)
            ∧ match rmtree host dest_dir (final loaded) with
              | (Raise e, w2) =>
                  run = mkOutcome (Raise e) w2
                          (emitted loaded ++ progress ++ [ERmtree dest_dir])
              | (Ok _, w2) =>
                  match copytree host case_path dest_dir w2 with
                  | (Raise e, w3) =>
                      run = mkOutcome (Raise e) w3
                              (emitted loaded ++ progress
                               ++ [ERmtree dest_dir;
                                   ECopytree case_path dest_dir])
                  | (Ok _, w3) =>
                      run = mkOutcome (Ok (PyPath.str dest_dir)) w3
                              (emitted loaded ++ progress
                               ++ [ERmtree dest_dir;
                                   ECopytree case_path dest_dir]
                               ++ reports)
                  end
              end)).
Proof.
  intros Hload Hpresent loaded dest_dir case_path run.
  assert (Hrun : run = export_case host case_name dest overwrite w) by done.
  unfold export_case in Hrun.
  rewrite (bind_run_with _ _ _ _ Hload) in Hrun.
  fold loaded in Hrun. rewrite !bind_gets in Hrun.
  fold dest_dir in Hrun.
  change (path_exists host (final loaded) dest_dir = true) in Hpresent.
  rewrite Hpresent in Hrun.
  clearbody run loaded. subst run case_path.
  split; intros ->; cbn [andb negb].
  - eexists. unfold with_effects, raise; simpl. by rewrite app_nil_r.
  - split.
    + intros e Hmeasure. erewrite bind_reads_raise by exact Hmeasure.
      unfold with_effects; simpl. by rewrite app_nil_r.
    + intros total_size file_list Hmeasure.
      destruct (export_copy_phase host case dest_dir true (final loaded) _ _
                  Hmeasure) as (progress & reports & Hprints & ->).
      exists progress, reports. split; [done |].
      rewrite Hpresent; cbn [andb].
      destruct (rmtree host dest_dir (final loaded)) as [[[]|e2] w2]; [| done].
      by destruct (copytree host (PyPath.of_str (cb_dir case)) dest_dir w2)
        as [[[]|e3] w3].
Qed.

End ExportOntoExisting.

Lemma export_case_onto_existing_destination_witness :
  let src := Toy.under Toy.cases_dir ["ieee-transmission"; "ieee14"] in
  let dst := mkPath "/" ["home"; "out"; "ieee14"] in
  let removed := (Toy.t_rmtree dst Toy.exported).2 in
  let copied := (Toy.t_copytree src dst removed).2 in
  (∃ m, export_case Toy.host "ieee14" "out" false Toy.exported
        = mkOutcome (Raise (FileExistsError m)) Toy.exported [])
  ∧ (∃ progress reports,
       Forall is_print (progress ++ reports)
       ∧ export_case Toy.host "ieee14" "out" true Toy.exported
         = mkOutcome (Ok "/home/out/ieee14") copied
             (progress ++ [ERmtree dst; ECopytree src dst] ++ reports))
  ∧ Toy.t_is_file removed (mkPath "/" ["home"; "out"; "ieee14"; "stale.txt"])
    = false.
Proof.
  intros src dst removed copied. split; [| split].
  - destruct (export_case_onto_existing_destination Toy.host "ieee14" "out"
                false Toy.exported ieee14_bundle eq_refl eq_refl) as [Hkeep _].
    exact (Hkeep eq_refl).
  - destruct (export_case_onto_existing_destination Toy.host "ieee14" "out"
                true Toy.exported ieee14_bundle eq_refl eq_refl) as [_ Hreplace].
    destruct (Hreplace eq_refl) as [_ Hmeasured].
    destruct (Hmeasured 4120%Z
                [Toy.under Toy.cases_dir ["ieee-transmission"; "ieee14"; "manifest.toml"];
                 Toy.under Toy.cases_dir ["ieee-transmission"; "ieee14"; "ieee14.raw"]]
                eq_refl) as (progress & reports & Hprints & Hrun).
    exists progress, reports. split; [exact Hprints | exact Hrun].
  - reflexivity.
Defined.

Example export_overwrite_run :
  export_case Toy.host "ieee14" "out" true Toy.exported
  = mkOutcome (Ok "/home/out/ieee14")
      (Toy.t_copytree (Toy.under Toy.cases_dir ["ieee-transmission"; "ieee14"])
         (mkPath "/" ["home"; "out"; "ieee14"])
         (Toy.t_rmtree (mkPath "/" ["home"; "out"; "ieee14"]) Toy.exported).2).2
      [ERmtree (mkPath "/" ["home"; "out"; "ieee14"]);
       ECopytree (Toy.under Toy.cases_dir ["ieee-transmission"; "ieee14"])
                 (mkPath "/" ["home"; "out"; "ieee14"]);
       EPrint [Text "Exported "; Text "ieee14"; Text " → "; Text "/home/out/ieee14"];
       EPrint [Text "Copied "; Count 2; Text " files ("; MegaBytes 4120;
               Text " MB)"]].
Proof. by vm_compute. Qed.
